(** * ESP32 GPS tracker: the orchestration loop of gps-tracking-alert.ino

    A shallow embedding of the sketch's globals, LED protocol, GPS
    ingestion, alert gating and main loop, with the properties of the
    design document stated and settled against it.

    Conventions.
    - [unsigned long] is 32 bits wide on the ESP32: values are [Z] in
      [0, 2^32) and subtraction wraps ([sub32]).
    - [double] is IEEE binary64, carried as the value it denotes
      ([spec_float]: sign, 53-bit mantissa, exponent); the sketch only
      stores and forwards coordinates.
    - The board is part of the state: a true clock [clock] in
      milliseconds since power-on (never wrapping; [millis] is its low
      32 bits), the levels of the GPIO pins, and a chronological log of
      the externally visible actions.  The clock advances in [delay] and
      in blocking calls to collaborators, by the time the caller is
      told they took.
    - What the outside world answers (radio status, wall clock, GPS
      sentences, SMTP and HTTP results) is an input: functions of the
      true clock in [Env], per-call records otherwise. *)

From Stdlib Require Import ZArith List Ascii String Bool Lia SpecFloat.
Import ListNotations.
Local Open Scope string_scope.
Local Open Scope list_scope.
Local Open Scope Z_scope.

(** ** Hardware configuration *)

Definition double : Set := spec_float.

Definition LED_WIFI_PIN : Z := 2.
Definition LED_GPS_PIN : Z := 4.
Definition LED_SYSTEM_PIN : Z := 5.

Definition HIGH : bool := true.
Definition LOW : bool := false.

Inductive LEDState : Set :=
| LED_OFF
| LED_ON
| LED_BLINK_SLOW
| LED_BLINK_FAST.

Definition LED_BLINK_INTERVAL : Z := 500.
Definition LED_FAST_BLINK_INTERVAL : Z := 200.
Definition LOCATION_SEND_INTERVAL : Z := 300000.

(** ** GeoLinker configuration constants *)

Definition updateInterval : Z := 30.
Definition enableOfflineStorage : bool := true.
Definition offlineBufferLimit : Z := 50.
Definition enableAutoReconnect : bool := true.
Definition timeOffsetHours : Z := 5.
Definition timeOffsetMinutes : Z := 30.

(** The settings the sketch hands to the [geo] object.  The object itself
    is the GeoLinker library; only what the sketch configures is kept. *)
Record GeoLinker : Set := mkGeoLinker {
  geo_begun : bool;
  geo_updateInterval_seconds : Z;
  geo_offlineStorage : bool;
  geo_autoReconnect : bool;
  geo_offlineBufferLimit : Z;
  geo_timeOffset : Z * Z
}.

Definition geo_unconfigured : GeoLinker :=
  mkGeoLinker false 0 false false 0 (0, 0).

(** ** Observable actions *)

Inductive CallSite : Set :=
| FirstLockSite   (* updateGPSData, "First GPS lock acquired!" *)
| PeriodicSite.   (* loop, "Sending periodic location update..." *)

Inductive Event : Set :=
| DigitalWrite (pin : Z) (level : bool)
| WiFiBegin (at_ms : Z)
| Called_sendLocationEmail (site : CallSite) (at_ms : Z)
| CannotSendEmail (at_ms : Z)
| SmtpConnect (at_ms : Z) (ok : bool)
| SendMail (at_ms : Z) (lat lng : double) (place stamp : string) (ok : bool)
| GeoLinkerStatus (status : Z).

(** ** The sketch's globals and the board *)

Record Device : Set := mkDevice {
  (* LED status variables *)
  wifiLEDState : LEDState;
  gpsLEDState : LEDState;
  systemLEDState : LEDState;
  lastLEDUpdate : Z;
  ledBlinkState : bool;
  (* GPS data storage *)
  currentLatitude : double;
  currentLongitude : double;
  gpsDataValid : bool;
  firstGPSLock : bool;
  currentLocationName : string;
  (* timing variables *)
  lastLocationSend : Z;
  lastGPSData : Z;          (* the static local of updateGPSData *)
  geo : GeoLinker;
  (* the board *)
  clock : Z;
  pinLevel : Z -> bool;
  trace : list Event
}.

Definition power_on : Device :=
  mkDevice LED_OFF LED_OFF LED_OFF 0 false
           (S754_zero false) (S754_zero false) false true "Unknown Location"
           0 0 geo_unconfigured
           0 (fun _ => LOW) [].

Definition set_wifiLEDState (v : LEDState) (s : Device) : Device :=
  mkDevice v (gpsLEDState s) (systemLEDState s) (lastLEDUpdate s) (ledBlinkState s)
    (currentLatitude s) (currentLongitude s) (gpsDataValid s) (firstGPSLock s)
    (currentLocationName s) (lastLocationSend s) (lastGPSData s) (geo s)
    (clock s) (pinLevel s) (trace s).

Definition set_gpsLEDState (v : LEDState) (s : Device) : Device :=
  mkDevice (wifiLEDState s) v (systemLEDState s) (lastLEDUpdate s) (ledBlinkState s)
    (currentLatitude s) (currentLongitude s) (gpsDataValid s) (firstGPSLock s)
    (currentLocationName s) (lastLocationSend s) (lastGPSData s) (geo s)
    (clock s) (pinLevel s) (trace s).

Definition set_systemLEDState (v : LEDState) (s : Device) : Device :=
  mkDevice (wifiLEDState s) (gpsLEDState s) v (lastLEDUpdate s) (ledBlinkState s)
    (currentLatitude s) (currentLongitude s) (gpsDataValid s) (firstGPSLock s)
    (currentLocationName s) (lastLocationSend s) (lastGPSData s) (geo s)
    (clock s) (pinLevel s) (trace s).

Definition set_blink (last : Z) (b : bool) (s : Device) : Device :=
  mkDevice (wifiLEDState s) (gpsLEDState s) (systemLEDState s) last b
    (currentLatitude s) (currentLongitude s) (gpsDataValid s) (firstGPSLock s)
    (currentLocationName s) (lastLocationSend s) (lastGPSData s) (geo s)
    (clock s) (pinLevel s) (trace s).

Definition set_position (lat lng : double) (s : Device) : Device :=
  mkDevice (wifiLEDState s) (gpsLEDState s) (systemLEDState s) (lastLEDUpdate s)
    (ledBlinkState s) lat lng (gpsDataValid s) (firstGPSLock s)
    (currentLocationName s) (lastLocationSend s) (lastGPSData s) (geo s)
    (clock s) (pinLevel s) (trace s).

Definition set_gpsDataValid (v : bool) (s : Device) : Device :=
  mkDevice (wifiLEDState s) (gpsLEDState s) (systemLEDState s) (lastLEDUpdate s)
    (ledBlinkState s) (currentLatitude s) (currentLongitude s) v (firstGPSLock s)
    (currentLocationName s) (lastLocationSend s) (lastGPSData s) (geo s)
    (clock s) (pinLevel s) (trace s).

Definition set_firstGPSLock (v : bool) (s : Device) : Device :=
  mkDevice (wifiLEDState s) (gpsLEDState s) (systemLEDState s) (lastLEDUpdate s)
    (ledBlinkState s) (currentLatitude s) (currentLongitude s) (gpsDataValid s) v
    (currentLocationName s) (lastLocationSend s) (lastGPSData s) (geo s)
    (clock s) (pinLevel s) (trace s).

Definition set_currentLocationName (v : string) (s : Device) : Device :=
  mkDevice (wifiLEDState s) (gpsLEDState s) (systemLEDState s) (lastLEDUpdate s)
    (ledBlinkState s) (currentLatitude s) (currentLongitude s) (gpsDataValid s)
    (firstGPSLock s) v (lastLocationSend s) (lastGPSData s) (geo s)
    (clock s) (pinLevel s) (trace s).

Definition set_lastLocationSend (v : Z) (s : Device) : Device :=
  mkDevice (wifiLEDState s) (gpsLEDState s) (systemLEDState s) (lastLEDUpdate s)
    (ledBlinkState s) (currentLatitude s) (currentLongitude s) (gpsDataValid s)
    (firstGPSLock s) (currentLocationName s) v (lastGPSData s) (geo s)
    (clock s) (pinLevel s) (trace s).

Definition set_lastGPSData (v : Z) (s : Device) : Device :=
  mkDevice (wifiLEDState s) (gpsLEDState s) (systemLEDState s) (lastLEDUpdate s)
    (ledBlinkState s) (currentLatitude s) (currentLongitude s) (gpsDataValid s)
    (firstGPSLock s) (currentLocationName s) (lastLocationSend s) v (geo s)
    (clock s) (pinLevel s) (trace s).

Definition set_geo (v : GeoLinker) (s : Device) : Device :=
  mkDevice (wifiLEDState s) (gpsLEDState s) (systemLEDState s) (lastLEDUpdate s)
    (ledBlinkState s) (currentLatitude s) (currentLongitude s) (gpsDataValid s)
    (firstGPSLock s) (currentLocationName s) (lastLocationSend s) (lastGPSData s) v
    (clock s) (pinLevel s) (trace s).

Definition set_clock (v : Z) (s : Device) : Device :=
  mkDevice (wifiLEDState s) (gpsLEDState s) (systemLEDState s) (lastLEDUpdate s)
    (ledBlinkState s) (currentLatitude s) (currentLongitude s) (gpsDataValid s)
    (firstGPSLock s) (currentLocationName s) (lastLocationSend s) (lastGPSData s)
    (geo s) v (pinLevel s) (trace s).

Definition set_pinLevel (v : Z -> bool) (s : Device) : Device :=
  mkDevice (wifiLEDState s) (gpsLEDState s) (systemLEDState s) (lastLEDUpdate s)
    (ledBlinkState s) (currentLatitude s) (currentLongitude s) (gpsDataValid s)
    (firstGPSLock s) (currentLocationName s) (lastLocationSend s) (lastGPSData s)
    (geo s) (clock s) v (trace s).

Definition emit (ev : Event) (s : Device) : Device :=
  mkDevice (wifiLEDState s) (gpsLEDState s) (systemLEDState s) (lastLEDUpdate s)
    (ledBlinkState s) (currentLatitude s) (currentLongitude s) (gpsDataValid s)
    (firstGPSLock s) (currentLocationName s) (lastLocationSend s) (lastGPSData s)
    (geo s) (clock s) (pinLevel s) (trace s ++ [ev]).

(** ** Arduino primitives *)

Definition two32 : Z := 2 ^ 32.

(** [a - b] on [unsigned long]. *)
Definition sub32 (a b : Z) : Z := (a - b) mod two32.

Definition millis (s : Device) : Z := clock s mod two32.

(** Blocking waits take the time they are given; [ms] is never negative. *)
Definition delay (ms : Z) (s : Device) : Device :=
  set_clock (clock s + Z.max 0 ms) s.

Definition digitalWrite (pin : Z) (level : bool) (s : Device) : Device :=
  emit (DigitalWrite pin level)
       (set_pinLevel (fun p => if p =? pin then level else pinLevel s p) s).

(** ** LED control functions *)

Definition controlLED (pin : Z) (state : LEDState) (s : Device) : Device :=
  match state with
  | LED_OFF => digitalWrite pin LOW s
  | LED_ON => digitalWrite pin HIGH s
  | LED_BLINK_SLOW => digitalWrite pin (if ledBlinkState s then HIGH else LOW) s
  | LED_BLINK_FAST =>
      digitalWrite pin
        (if millis s mod (LED_FAST_BLINK_INTERVAL * 2) <? LED_FAST_BLINK_INTERVAL
         then HIGH else LOW) s
  end.

Definition updateLEDs (s : Device) : Device :=
  let currentTime := millis s in
  let s := if sub32 currentTime (lastLEDUpdate s) >=? LED_BLINK_INTERVAL
           then set_blink currentTime (negb (ledBlinkState s)) s
           else s in
  let s := controlLED LED_WIFI_PIN (wifiLEDState s) s in
  let s := controlLED LED_GPS_PIN (gpsLEDState s) s in
  controlLED LED_SYSTEM_PIN (systemLEDState s) s.

Definition initializeLEDs (s : Device) : Device :=
  let s := digitalWrite LED_WIFI_PIN HIGH s in
  let s := delay 300 s in
  let s := digitalWrite LED_WIFI_PIN LOW s in
  let s := digitalWrite LED_GPS_PIN HIGH s in
  let s := delay 300 s in
  let s := digitalWrite LED_GPS_PIN LOW s in
  let s := digitalWrite LED_SYSTEM_PIN HIGH s in
  let s := delay 300 s in
  digitalWrite LED_SYSTEM_PIN LOW s.

Definition setWiFiLED (state : LEDState) (s : Device) : Device :=
  set_wifiLEDState state s.

Definition setGPSLED (state : LEDState) (s : Device) : Device :=
  set_gpsLEDState state s.

Definition setSystemLED (state : LEDState) (s : Device) : Device :=
  set_systemLEDState state s.

(** ** The outside world *)

(** Readings that depend only on when they are taken. *)
Record Env : Type := mkEnv {
  wifi_connected : Z -> bool;   (* WiFi.status() == WL_CONNECTED *)
  wall_clock : Z -> Z;          (* time(nullptr), seconds *)
  strftime_IST : Z -> string    (* localtime_r, then "%Y-%m-%d %H:%M:%S IST" *)
}.

(** What one call of [sendLocationEmail] meets: the reverse-geocoding
    exchange and the SMTP session, each with the time it blocks for. *)
Record MailEnv : Set := mkMailEnv {
  geocode_reply : option string;   (* the display_name found, if any *)
  geocode_ms : Z;
  smtp_connect_ok : bool;
  smtp_connect_ms : Z;
  sendMail_ok : bool;
  sendMail_ms : Z
}.

(** What TinyGPS++ makes of one byte read from the GPS serial port. *)
Inductive GpsByte : Set :=
| NoSentence                                (* gps.encode(c) is false *)
| Sentence (loc : option (double * double)).  (* a sentence completed;
                                               location.isValid() and lat, lng *)

(** What one iteration of [loop] meets. *)
Record TickEnv : Set := mkTickEnv {
  gps_bytes : list GpsByte;    (* the bytes gpsSerial hands over *)
  lock_mail : MailEnv;         (* for the first-lock e-mail, should it go out *)
  geo_status : Z;              (* geo.loop(), a uint8_t *)
  geo_ms : Z;
  periodic_mail : MailEnv      (* for the periodic e-mail, should it go out *)
}.

(** ** WiFi connection *)

Definition WIFI_TIMEOUT : Z := 20000.

(** The polling loop of [connectToWiFi].  Every iteration waits 500 ms,
    so the 41 rounds below are never used up ([connectToWiFi_wait_exit]). *)
Fixpoint connectToWiFi_wait (e : Env) (startTime : Z) (rounds : nat)
    (s : Device) : Device :=
  match rounds with
  | O => s
  | S rounds' =>
      if negb (wifi_connected e (clock s))
         && (sub32 (millis s) startTime <? WIFI_TIMEOUT)
      then connectToWiFi_wait e startTime rounds' (updateLEDs (delay 500 s))
      else s
  end.

Definition connectToWiFi (e : Env) (s : Device) : Device :=
  let s := emit (WiFiBegin (clock s)) s in
  let s := setWiFiLED LED_BLINK_SLOW s in
  let startTime := millis s in
  let s := connectToWiFi_wait e startTime 41 s in
  if wifi_connected e (clock s)
  then setWiFiLED LED_ON s
  else setWiFiLED LED_BLINK_FAST s.

(** ** Time synchronisation *)

Definition TIME_SANE : Z := 8 * 3600 * 2.
Definition SYNC_TIMEOUT : Z := 10000.

Fixpoint syncTime_wait (e : Env) (start : Z) (rounds : nat) (now : Z)
    (s : Device) : Z * Device :=
  match rounds with
  | O => (now, s)
  | S rounds' =>
      if (now <? TIME_SANE) && (sub32 (millis s) start <? SYNC_TIMEOUT)
      then let s := updateLEDs (delay 500 s) in
           syncTime_wait e start rounds' (wall_clock e (clock s)) s
      else (now, s)
  end.

Definition syncTime (e : Env) (s : Device) : bool * Device :=
  let now := wall_clock e (clock s) in
  let start := millis s in
  let (now, s) := syncTime_wait e start 21 now s in
  if now <? TIME_SANE then (false, s) else (true, s).

Definition TIME_NOT_SYNCHRONIZED : string := "Time not synchronized".

Definition getCurrentTimestamp (e : Env) (s : Device) : string :=
  let now := wall_clock e (clock s) in
  if now <? TIME_SANE then TIME_NOT_SYNCHRONIZED else strftime_IST e now.

(** ** GeoLinker initialisation *)

Definition initializeGeoLinker (e : Env) (geo_wifi_ok : bool) (s : Device)
    : Device :=
  let s := set_geo {| geo_begun := true;
                      geo_updateInterval_seconds := updateInterval;
                      geo_offlineStorage := enableOfflineStorage;
                      geo_autoReconnect := enableAutoReconnect;
                      geo_offlineBufferLimit := offlineBufferLimit;
                      geo_timeOffset := (timeOffsetHours, timeOffsetMinutes) |} s in
  if wifi_connected e (clock s)
  then if geo_wifi_ok then s else setSystemLED LED_BLINK_SLOW s
  else s.

(** ** setup *)

(** The part of [setup] before the time synchronisation. *)
Definition setup_until_sync (e : Env) (s : Device) : Device :=
  let s := delay 1000 s in
  let s := initializeLEDs s in
  let s := setSystemLED LED_BLINK_SLOW s in
  let s := setGPSLED LED_BLINK_SLOW s in
  let s := setWiFiLED LED_BLINK_SLOW s in
  connectToWiFi e s.

Definition setup (e : Env) (geo_wifi_ok : bool) (s : Device) : Device :=
  let s := setup_until_sync e s in
  let (synced, s) := syncTime e s in
  let s := if negb synced
           then setSystemLED LED_BLINK_SLOW s
           else setSystemLED LED_OFF s in
  initializeGeoLinker e geo_wifi_ok s.

(** ** E-mail *)

Definition getAddressFromCoordinates (e : Env) (m : MailEnv)
    (lat lng : double) (s : Device) : string * Device :=
  if negb (wifi_connected e (clock s)) then ("Network unavailable", s)
  else
    let s := delay (geocode_ms m) s in
    match geocode_reply m with
    | Some display_name => (display_name, s)
    | None => ("Address lookup failed", s)
    end.

Definition sendLocationEmail (e : Env) (m : MailEnv) (s : Device) : Device :=
  if negb (wifi_connected e (clock s)) || negb (gpsDataValid s)
  then emit (CannotSendEmail (clock s)) s
  else
    let (name, s) :=
      getAddressFromCoordinates e m (currentLatitude s) (currentLongitude s) s in
    let s := set_currentLocationName name s in
    let stamp := getCurrentTimestamp e s in
    let s := emit (SmtpConnect (clock s) (smtp_connect_ok m)) s in
    let s := delay (smtp_connect_ms m) s in
    if negb (smtp_connect_ok m) then s
    else
      let s := emit (SendMail (clock s) (currentLatitude s) (currentLongitude s)
                              (currentLocationName s) stamp (sendMail_ok m)) s in
      delay (sendMail_ms m) s.

(** ** GPS data processing *)

Definition on_gps_byte (e : Env) (m : MailEnv) (b : GpsByte) (s : Device)
    : Device :=
  match b with
  | NoSentence => s
  | Sentence (Some (lat, lng)) =>
      let s := set_position lat lng s in
      let s := set_gpsDataValid true s in
      let s := setGPSLED LED_ON s in
      if firstGPSLock s then
        let s := set_firstGPSLock false s in
        let s := emit (Called_sendLocationEmail FirstLockSite (clock s)) s in
        sendLocationEmail e m s
      else s
  | Sentence None => setGPSLED LED_BLINK_SLOW s
  end.

(** [while (gpsSerial.available() > 0)], over the bytes it reads. *)
Fixpoint read_gps (e : Env) (m : MailEnv) (bytes : list GpsByte) (s : Device)
    : Device :=
  match bytes with
  | [] => s
  | b :: rest => read_gps e m rest (on_gps_byte e m b s)
  end.

Definition GPS_SILENCE : Z := 5000.

Definition updateGPSData (e : Env) (bytes : list GpsByte) (m : MailEnv)
    (s : Device) : Device :=
  let gpsDataReceived := match bytes with [] => false | _ :: _ => true end in
  let s := read_gps e m bytes s in
  if gpsDataReceived then set_lastGPSData (millis s) s
  else if sub32 (millis s) (lastGPSData s) >? GPS_SILENCE
       then setGPSLED LED_OFF s
       else s.

(** ** GeoLinker status handler: one log line per status, nothing else *)

Definition handleGeoLinkerStatus (status : Z) (s : Device) : Device :=
  emit (GeoLinkerStatus status) s.

(** ** Main program loop *)

Definition loop_reconnect (e : Env) (s : Device) : Device :=
  if negb (wifi_connected e (clock s)) then connectToWiFi e s else s.

Definition loop_geo (t : TickEnv) (s : Device) : Device :=
  let s := delay (geo_ms t) s in
  let geoStatus := geo_status t in
  if geoStatus >? 0 then handleGeoLinkerStatus geoStatus s else s.

(** The guard of the periodic e-mail, as [loop] evaluates it. *)
Definition periodic_due (s : Device) : bool :=
  (sub32 (millis s) (lastLocationSend s) >? LOCATION_SEND_INTERVAL)
  && gpsDataValid s.

Definition loop_periodic (e : Env) (m : MailEnv) (s : Device) : Device :=
  if periodic_due s then
    let s := emit (Called_sendLocationEmail PeriodicSite (clock s)) s in
    let s := sendLocationEmail e m s in
    set_lastLocationSend (millis s) s
  else s.

Definition loop (e : Env) (t : TickEnv) (s : Device) : Device :=
  let s := loop_reconnect e s in
  let s := updateGPSData e (gps_bytes t) (lock_mail t) s in
  let s := loop_geo t s in
  let s := loop_periodic e (periodic_mail t) s in
  delay 100 s.

(** The sketch after power-on: [setup] once, then [loop] for ever; here
    for the iterations whose inputs are given. *)
Fixpoint run (e : Env) (ticks : list TickEnv) (s : Device) : Device :=
  match ticks with
  | [] => s
  | t :: rest => run e rest (loop e t s)
  end.

Definition boot (e : Env) (geo_wifi_ok : bool) (ticks : list TickEnv) : Device :=
  run e ticks (setup e geo_wifi_ok power_on).

(** The state in which an iteration of [loop] reaches its periodic check. *)
Definition at_periodic_check (e : Env) (t : TickEnv) (s : Device) : Device :=
  loop_geo t (updateGPSData e (gps_bytes t) (lock_mail t) (loop_reconnect e s)).

(** What [updateLEDs] does to the shared slow-blink toggle. *)
Definition blink_tick (s : Device) : Device :=
  if sub32 (millis s) (lastLEDUpdate s) >=? LED_BLINK_INTERVAL
  then set_blink (millis s) (negb (ledBlinkState s)) s
  else s.

(** ** Reading the log *)

Definition is_mail_event (ev : Event) : bool :=
  match ev with
  | Called_sendLocationEmail _ _ | CannotSendEmail _
  | SmtpConnect _ _ | SendMail _ _ _ _ _ _ => true
  | DigitalWrite _ _ | WiFiBegin _ | GeoLinkerStatus _ => false
  end.

Definition is_first_lock_call (ev : Event) : bool :=
  match ev with Called_sendLocationEmail FirstLockSite _ => true | _ => false end.

Definition is_periodic_call (ev : Event) : bool :=
  match ev with Called_sendLocationEmail PeriodicSite _ => true | _ => false end.

(** The send step of [sendLocationEmail] opens with [smtp.connect]. *)
Definition is_send_step (ev : Event) : bool :=
  match ev with SmtpConnect _ _ => true | _ => false end.

Definition is_digital_write (ev : Event) : bool :=
  match ev with DigitalWrite _ _ => true | _ => false end.

Definition mail_log (tr : list Event) : list Event := filter is_mail_event tr.

Definition first_lock_calls (tr : list Event) : nat :=
  List.length (filter is_first_lock_call tr).

Definition periodic_calls (tr : list Event) : nat :=
  List.length (filter is_periodic_call tr).

Definition send_steps (tr : list Event) : nat :=
  List.length (filter is_send_step tr).

Definition digital_writes (tr : list Event) : list Event :=
  filter is_digital_write tr.

(** When each e-mail was handed to [MailClient.sendMail]. *)
Fixpoint sendMail_times (tr : list Event) : list Z :=
  match tr with
  | [] => []
  | SendMail at_ms _ _ _ _ _ :: rest => at_ms :: sendMail_times rest
  | _ :: rest => sendMail_times rest
  end.

(** What the LED, WiFi and GeoLinker housekeeping leaves alone: the GPS
    and alert variables, the GPS and system indicator states, the GeoLinker
    settings and the e-mail part of the log. *)
Definition steady (s : Device) : Device :=
  mkDevice LED_OFF (gpsLEDState s) (systemLEDState s) 0 false
    (currentLatitude s) (currentLongitude s) (gpsDataValid s) (firstGPSLock s)
    (currentLocationName s) (lastLocationSend s) (lastGPSData s) (geo s)
    0 (fun _ => LOW) (mail_log (trace s)).

(** The variables the alert logic reads and writes, with its log. *)
Definition alert_state (s : Device) : bool * bool * Z * list Event :=
  (gpsDataValid s, firstGPSLock s, lastLocationSend s, mail_log (trace s)).

(** The first-lock path has been taken once if the fix was ever valid,
    and never otherwise. *)
Definition first_lock_inv (s : Device) : Prop :=
  first_lock_calls (trace s) = (if gpsDataValid s then 1 else 0)%nat
  /\ firstGPSLock s = negb (gpsDataValid s).

(** ** Modelled part: the offline buffer *)

Module TelemetrySyncBuffer.

(** Modelled from the spec: a SyncBufferEntry, "a Fix snapshot plus a
    monotonically increasing sequence number".  The buffer itself is kept by
    the GeoLinker library behind [geo.loop()]; that library is not among the
    sources, only its configuration in [initializeGeoLinker] is. *)
Record SyncBufferEntry : Set := mkEntry {
  entry_lat : double;
  entry_lng : double;
  entry_seq : Z
}.

(** Modelled from the spec: the "bounded FIFO of capacity N", oldest entry
    first, with the sequence number the next entry will get. *)
Record Buffer : Set := mkBuffer {
  entries : list SyncBufferEntry;
  next_seq : Z
}.

Definition empty : Buffer := mkBuffer [] 1.

(** Modelled from the spec: "the buffer capacity is fixed; exceeding it
    evicts the oldest unsent entry to admit the newest". *)
Definition push (capacity : nat) (lat lng : double) (b : Buffer) : Buffer :=
  let x := mkEntry lat lng (next_seq b) in
  let kept := if (capacity <=? List.length (entries b))%nat
              then tl (entries b) else entries b in
  mkBuffer (kept ++ [x]) (next_seq b + 1).

(** Pushes attempted one after the other while the link is down. *)
Fixpoint push_all (capacity : nat) (fixes : list (double * double)) (b : Buffer)
    : Buffer :=
  match fixes with
  | [] => b
  | (lat, lng) :: rest => push_all capacity rest (push capacity lat lng b)
  end.

(** The entries a run of pushes creates, numbered from [first_seq] on. *)
Fixpoint stamp (first_seq : Z) (fixes : list (double * double))
    : list SyncBufferEntry :=
  match fixes with
  | [] => []
  | (lat, lng) :: rest => mkEntry lat lng first_seq :: stamp (first_seq + 1) rest
  end.

End TelemetrySyncBuffer.

(** ** Concrete surroundings used in the examples *)

Definition always_online : Env :=
  mkEnv (fun _ => true) (fun t => 1790000000 + t / 1000) (fun _ => "2026-09-21 12:00:00 IST").

Definition never_online : Env :=
  mkEnv (fun _ => false) (fun t => t / 1000) (fun _ => "").

(** The link drops 200 s after power-on and does not come back. *)
Definition link_lost_at_200s : Env :=
  mkEnv (fun t => t <? 200000) (fun t => 1790000000 + t / 1000)
        (fun _ => "2026-09-21 12:00:00 IST").

Definition mail_ok : MailEnv :=
  mkMailEnv (Some "Salt Lake, Kolkata") 800 true 1500 true 2500.

(** 22.5 N, 88.375 E as binary64 values. *)
Definition kolkata_lat : double := S754_finite false 6333186975989760 (-48).
Definition kolkata_lng : double := S754_finite false 6218837766701056 (-46).
Definition kolkata : double * double := (kolkata_lat, kolkata_lng).

Definition tick_silent : TickEnv := mkTickEnv [] mail_ok 0 0 mail_ok.
Definition tick_searching : TickEnv :=
  mkTickEnv [NoSentence; NoSentence; Sentence None] mail_ok 0 0 mail_ok.
Definition tick_fix : TickEnv :=
  mkTickEnv [NoSentence; NoSentence; Sentence (Some kolkata)] mail_ok 0 0 mail_ok.

(** A locked tracker whose GPS module has been silent for six seconds. *)
Definition locked_then_silent : Device :=
  boot always_online true (tick_fix :: repeat tick_silent 60).

(** Exactly five minutes after power-on, first lock long since mailed. *)
Definition five_minutes_sharp : Device :=
  boot always_online true (tick_fix :: repeat tick_searching 2932).

(** The link went down at 200 s; the first periodic e-mail is now due. *)
Definition offline_and_due : Device :=
  at_periodic_check link_lost_at_200s tick_searching
    (boot link_lost_at_200s true (tick_fix :: repeat tick_searching 1936)).

(** The receiver needed five minutes to find its first fix. *)
Definition late_first_lock : Device :=
  boot always_online true (repeat tick_searching 3000).

(** ** Reverse geocoding: the HTTP exchange of getAddressFromCoordinates

    Strings are Arduino [String]s, that is C strings: no NUL inside. *)

Definition dquote : Ascii.ascii := "034"%char.

(** The line that ends the HTTP headers, as [readStringUntil] with the
    terminator LF returns it: a lone CR. *)
Definition CR_LINE : string := String "013"%char EmptyString.

(** The 16 characters looked for in the body: the key display_name between
    double quotes, a colon, and the double quote that opens the value. *)
Definition DISPLAY_NAME_KEY : string :=
  String dquote ("display_name" ++ String dquote (":" ++ String dquote ""))%string.

(** [String::indexOf(pattern, fromIndex)]: the first occurrence at or after
    [fromIndex], -1 when there is none or [fromIndex] is past the end. *)
Definition indexOf (pattern : string) (fromIndex : Z) (s : string) : Z :=
  if Z.of_nat (String.length s) <=? fromIndex then -1
  else match String.index (Z.to_nat fromIndex) pattern s with
       | Some i => Z.of_nat i
       | None => -1
       end.

(** [String::substring(left, right)]: the characters from [left] up to, not
    including, [right]. *)
Definition substring_between (left right : Z) (s : string) : string :=
  let left' := if right <? left then right else left in
  let right' := if right <? left then left else right in
  let len := Z.of_nat (String.length s) in
  if len <=? left' then ""
  else
    let right'' := if len <? right' then len else right' in
    String.substring (Z.to_nat left') (Z.to_nat (right'' - left')) s.

(** The read loop: [lines] are the results of the successive
    [client.readStringUntil(LF)] calls.  Header lines are skipped up to the
    first lone CR; what follows is appended to [response], line by line. *)
Fixpoint http_body (headersEnded : bool) (response : string)
    (lines : list string) : string :=
  match lines with
  | [] => response
  | line :: rest =>
      if negb headersEnded
      then http_body (if String.eqb line CR_LINE then true else headersEnded)
                     response rest
      else http_body headersEnded (response ++ line)%string rest
  end.

(** "Parse JSON response": the text between the key and the next double
    quote, if both are found. *)
Definition parse_display_name (response : string) : option string :=
  let addressStart := indexOf DISPLAY_NAME_KEY 0 response in
  if negb (addressStart =? -1) then
    let addressStart := addressStart + 16 in
    let addressEnd := indexOf (String dquote "") addressStart response in
    if negb (addressEnd =? -1)
    then Some (substring_between addressStart addressEnd response)
    else None
  else None.

(** What the exchange with nominatim.openstreetmap.org yields: whether
    [client.connect] succeeded, and the lines read back. *)
Definition http_reply (connect_ok : bool) (lines : list string) : option string :=
  if connect_ok then parse_display_name (http_body false "" lines) else None.

(** [s] does not contain the character [c]. *)
Fixpoint char_free (c : Ascii.ascii) (s : string) : bool :=
  match s with
  | EmptyString => true
  | String b s' => negb (Ascii.eqb b c) && char_free c s'
  end.

(** The body lines joined as the read loop joins them. *)
Fixpoint joined (lines : list string) : string :=
  match lines with
  | [] => EmptyString
  | line :: rest => (line ++ joined rest)%string
  end.

(** ** Reading aids for the further properties *)

(** The level [updateLEDs] gives a channel, from its state, the shared
    toggle and the millisecond counter. *)
Definition rendered (st : LEDState) (toggle : bool) (ms : Z) : bool :=
  match st with
  | LED_OFF => LOW
  | LED_ON => HIGH
  | LED_BLINK_SLOW => toggle
  | LED_BLINK_FAST => ms mod 400 <? 200
  end.

(** The last sentence with a valid location among the bytes read. *)
Fixpoint last_fix (bytes : list GpsByte) (acc : option (double * double))
    : option (double * double) :=
  match bytes with
  | [] => acc
  | Sentence (Some loc) :: rest => last_fix rest (Some loc)
  | _ :: rest => last_fix rest acc
  end.

(** The GPS indicator state the last completed sentence asks for. *)
Fixpoint last_sentence_led (bytes : list GpsByte) (acc : LEDState) : LEDState :=
  match bytes with
  | [] => acc
  | Sentence (Some _) :: rest => last_sentence_led rest LED_ON
  | Sentence None :: rest => last_sentence_led rest LED_BLINK_SLOW
  | NoSentence :: rest => last_sentence_led rest acc
  end.

(** When the periodic path called sendLocationEmail. *)
Fixpoint periodic_call_times (tr : list Event) : list Z :=
  match tr with
  | [] => []
  | Called_sendLocationEmail PeriodicSite at_ms :: rest =>
      at_ms :: periodic_call_times rest
  | _ :: rest => periodic_call_times rest
  end.

(** Every element is more than [gap] after the one before it. *)
Fixpoint spaced (gap : Z) (times : list Z) : Prop :=
  match times with
  | [] => True
  | t1 :: rest =>
      match rest with
      | [] => True
      | t2 :: _ => t1 + gap < t2 /\ spaced gap rest
      end
  end.

(** The indicator states the sketch can be in between iterations. *)
Definition led_states_in_use (s : Device) : Prop :=
  (wifiLEDState s = LED_ON \/ wifiLEDState s = LED_BLINK_FAST)
  /\ (gpsLEDState s = LED_OFF \/ gpsLEDState s = LED_ON
      \/ gpsLEDState s = LED_BLINK_SLOW)
  /\ (systemLEDState s = LED_OFF \/ systemLEDState s = LED_BLINK_SLOW).

(** The throttle timestamp stands for a true moment [sent_at] that is not
    in the future and not before any periodic call, and the periodic calls
    so far are more than the interval apart. *)
Definition throttle_inv (s : Device) : Prop :=
  exists sent_at : Z,
    lastLocationSend s = sent_at mod two32
    /\ sent_at <= clock s
    /\ (forall t, In t (periodic_call_times (trace s)) -> t <= sent_at)
    /\ spaced LOCATION_SEND_INTERVAL (periodic_call_times (trace s)).

(** * Properties *)

(** ** Indicator rendering *)

Lemma pinLevel_digitalWrite_same (pin : Z) (level : bool) (s : Device) :
  pinLevel (digitalWrite pin level s) pin = level.
Proof. unfold digitalWrite; simpl. now rewrite Z.eqb_refl. Qed.

Lemma pinLevel_digitalWrite_other (pin q : Z) (level : bool) (s : Device) :
  q <> pin -> pinLevel (digitalWrite pin level s) q = pinLevel s q.
Proof.
  intros Hq; unfold digitalWrite; simpl.
  destruct (Z.eqb_spec q pin); [contradiction | reflexivity].
Qed.

Lemma pinLevel_controlLED_other (pin q : Z) (st : LEDState) (s : Device) :
  q <> pin -> pinLevel (controlLED pin st s) q = pinLevel s q.
Proof.
  intros Hq; destruct st; unfold controlLED;
    now rewrite pinLevel_digitalWrite_other.
Qed.

Lemma millis_controlLED (pin : Z) (st : LEDState) (s : Device) :
  millis (controlLED pin st s) = millis s.
Proof. now destruct st. Qed.

Lemma fast_blink_level (pin : Z) (s : Device) :
  pinLevel (controlLED pin LED_BLINK_FAST s) pin = (millis s mod 400 <? 200).
Proof.
  unfold controlLED; rewrite pinLevel_digitalWrite_same.
  change (LED_FAST_BLINK_INTERVAL * 2) with 400.
  change LED_FAST_BLINK_INTERVAL with 200.
  now destruct (millis s mod 400 <? 200).
Qed.

Lemma controlLED_keeps_states (pin : Z) (st : LEDState) (s : Device) :
  wifiLEDState (controlLED pin st s) = wifiLEDState s
  /\ gpsLEDState (controlLED pin st s) = gpsLEDState s
  /\ systemLEDState (controlLED pin st s) = systemLEDState s.
Proof. now destruct st. Qed.

Lemma updateLEDs_unfold (s : Device) :
  updateLEDs s =
  let s1 := blink_tick s in
  controlLED LED_SYSTEM_PIN (systemLEDState s1)
    (controlLED LED_GPS_PIN (gpsLEDState s1)
       (controlLED LED_WIFI_PIN (wifiLEDState s1) s1)).
Proof.
  unfold updateLEDs, blink_tick.
  destruct (sub32 (millis s) (lastLEDUpdate s) >=? LED_BLINK_INTERVAL);
    cbv zeta;
    rewrite (proj1 (proj2 (controlLED_keeps_states _ _ _)));
    rewrite !(proj2 (proj2 (controlLED_keeps_states _ _ _)));
    reflexivity.
Qed.

Lemma blink_tick_keeps (s : Device) :
  millis (blink_tick s) = millis s
  /\ wifiLEDState (blink_tick s) = wifiLEDState s
  /\ gpsLEDState (blink_tick s) = gpsLEDState s
  /\ systemLEDState (blink_tick s) = systemLEDState s.
Proof.
  unfold blink_tick.
  destruct (sub32 (millis s) (lastLEDUpdate s) >=? LED_BLINK_INTERVAL);
    repeat split; reflexivity.
Qed.

(** C8. A channel in state BlinkFast is rendered on exactly when
    millis() modulo 400 ms is below 200 ms, whatever the shared slow-blink
    toggle holds and whether or not it flipped in this call of updateLEDs. *)
Theorem fast_blink_follows_clock_only :
  forall (s : Device) (pin : Z),
    (pinLevel (controlLED pin LED_BLINK_FAST s) pin = HIGH
       <-> millis s mod 400 < 200)
    /\ (forall (last : Z) (toggle : bool),
          pinLevel (controlLED pin LED_BLINK_FAST (set_blink last toggle s)) pin
          = pinLevel (controlLED pin LED_BLINK_FAST s) pin)
    /\ (wifiLEDState s = LED_BLINK_FAST ->
          pinLevel (updateLEDs s) LED_WIFI_PIN = (millis s mod 400 <? 200))
    /\ (gpsLEDState s = LED_BLINK_FAST ->
          pinLevel (updateLEDs s) LED_GPS_PIN = (millis s mod 400 <? 200))
    /\ (systemLEDState s = LED_BLINK_FAST ->
          pinLevel (updateLEDs s) LED_SYSTEM_PIN = (millis s mod 400 <? 200)).
Proof.
  intros s pin.
  destruct (blink_tick_keeps s) as (Hm & Hw & Hg & Hs).
  split; [| split; [| split; [| split]]].
  - rewrite fast_blink_level. unfold HIGH. apply Z.ltb_lt.
  - intros last toggle. now rewrite !fast_blink_level.
  - intros H. rewrite updateLEDs_unfold; cbv zeta.
    rewrite !pinLevel_controlLED_other by (unfold LED_WIFI_PIN, LED_GPS_PIN, LED_SYSTEM_PIN; lia).
    rewrite Hw, H, fast_blink_level, Hm. reflexivity.
  - intros H. rewrite updateLEDs_unfold; cbv zeta.
    rewrite pinLevel_controlLED_other by (unfold LED_WIFI_PIN, LED_GPS_PIN, LED_SYSTEM_PIN; lia).
    rewrite Hg, H, fast_blink_level, millis_controlLED, Hm. reflexivity.
  - intros H. rewrite updateLEDs_unfold; cbv zeta.
    rewrite Hs, H, fast_blink_level, !millis_controlLED, Hm. reflexivity.
Qed.

(** After a failed connection attempt the link channel is in BlinkFast. *)
Lemma fast_blink_follows_clock_only_witness :
  let s := connectToWiFi never_online power_on in
  wifiLEDState s = LED_BLINK_FAST
  /\ pinLevel (updateLEDs s) LED_WIFI_PIN = (millis s mod 400 <? 200).
Proof.
  split; [reflexivity |].
  apply (proj1 (proj2 (proj2
           (fast_blink_follows_clock_only (connectToWiFi never_online power_on)
              LED_WIFI_PIN)))).
  reflexivity.
Defined.

(** ** Unsigned arithmetic on the millisecond counter *)

(** The wrapped difference of two readings is the time between them, as
    long as that is less than 2^32 ms (about 49.7 days). *)
Lemma sub32_elapsed (c d : Z) :
  0 <= d < two32 -> sub32 ((c + d) mod two32) (c mod two32) = d.
Proof.
  intros Hd; unfold sub32.
  rewrite <- Zminus_mod.
  replace (c + d - c) with d by lia.
  now apply Z.mod_small.
Qed.

(** ** Housekeeping leaves the alert state alone *)

Lemma steady_emit_board (ev : Event) (s : Device) :
  is_mail_event ev = false -> steady (emit ev s) = steady s.
Proof.
  intros Hev; unfold steady, emit, mail_log; simpl.
  rewrite filter_app; simpl; rewrite Hev, app_nil_r. reflexivity.
Qed.

Lemma steady_delay (ms : Z) (s : Device) : steady (delay ms s) = steady s.
Proof. reflexivity. Qed.

Lemma steady_digitalWrite (pin : Z) (level : bool) (s : Device) :
  steady (digitalWrite pin level s) = steady s.
Proof. unfold digitalWrite. now rewrite steady_emit_board. Qed.

Lemma steady_controlLED (pin : Z) (st : LEDState) (s : Device) :
  steady (controlLED pin st s) = steady s.
Proof. destruct st; apply steady_digitalWrite. Qed.

Lemma steady_blink_tick (s : Device) : steady (blink_tick s) = steady s.
Proof.
  unfold blink_tick.
  now destruct (sub32 (millis s) (lastLEDUpdate s) >=? LED_BLINK_INTERVAL).
Qed.

Lemma steady_updateLEDs (s : Device) : steady (updateLEDs s) = steady s.
Proof.
  rewrite updateLEDs_unfold; cbv zeta.
  rewrite !steady_controlLED. apply steady_blink_tick.
Qed.

Lemma steady_setWiFiLED (st : LEDState) (s : Device) :
  steady (setWiFiLED st s) = steady s.
Proof. reflexivity. Qed.

Lemma steady_connectToWiFi_wait (e : Env) (startTime : Z) (rounds : nat) :
  forall s, steady (connectToWiFi_wait e startTime rounds s) = steady s.
Proof.
  induction rounds as [| rounds IH]; intros s; simpl; [reflexivity |].
  destruct (negb (wifi_connected e (clock s))
            && (sub32 (millis s) startTime <? WIFI_TIMEOUT)); [| reflexivity].
  rewrite IH, steady_updateLEDs. apply steady_delay.
Qed.

Lemma steady_connectToWiFi (e : Env) (s : Device) :
  steady (connectToWiFi e s) = steady s.
Proof.
  unfold connectToWiFi; cbv zeta.
  match goal with |- context [if ?b then _ else _] => destruct b end;
    rewrite steady_setWiFiLED, steady_connectToWiFi_wait, steady_setWiFiLED;
    now apply steady_emit_board.
Qed.

Lemma steady_loop_reconnect (e : Env) (s : Device) :
  steady (loop_reconnect e s) = steady s.
Proof.
  unfold loop_reconnect.
  destruct (negb (wifi_connected e (clock s))); [apply steady_connectToWiFi | reflexivity].
Qed.

Lemma steady_loop_geo (t : TickEnv) (s : Device) :
  steady (loop_geo t s) = steady s.
Proof.
  unfold loop_geo, handleGeoLinkerStatus; cbv zeta.
  destruct (geo_status t >? 0); [now rewrite steady_emit_board |]; reflexivity.
Qed.

Lemma steady_syncTime_wait (e : Env) (start : Z) (rounds : nat) :
  forall now s, steady (snd (syncTime_wait e start rounds now s)) = steady s.
Proof.
  induction rounds as [| rounds IH]; intros now s; simpl; [reflexivity |].
  destruct ((now <? TIME_SANE) && (sub32 (millis s) start <? SYNC_TIMEOUT));
    [| reflexivity].
  rewrite IH, steady_updateLEDs. apply steady_delay.
Qed.

Lemma steady_syncTime (e : Env) (s : Device) :
  steady (snd (syncTime e s)) = steady s.
Proof.
  unfold syncTime; cbv zeta.
  pose proof (steady_syncTime_wait e (millis s) 21 (wall_clock e (clock s)) s) as H.
  destruct (syncTime_wait e (millis s) 21 (wall_clock e (clock s)) s) as [now s'].
  simpl in H. now destruct (now <? TIME_SANE).
Qed.

(** Reading the alert variables off the steady part. *)
Lemma steady_reads (s s' : Device) :
  steady s' = steady s ->
  gpsDataValid s' = gpsDataValid s
  /\ firstGPSLock s' = firstGPSLock s
  /\ currentLatitude s' = currentLatitude s
  /\ currentLongitude s' = currentLongitude s
  /\ lastLocationSend s' = lastLocationSend s
  /\ lastGPSData s' = lastGPSData s
  /\ gpsLEDState s' = gpsLEDState s
  /\ systemLEDState s' = systemLEDState s
  /\ geo s' = geo s
  /\ mail_log (trace s') = mail_log (trace s).
Proof.
  intros H.
  repeat split;
    [ change (gpsDataValid (steady s') = gpsDataValid (steady s))
    | change (firstGPSLock (steady s') = firstGPSLock (steady s))
    | change (currentLatitude (steady s') = currentLatitude (steady s))
    | change (currentLongitude (steady s') = currentLongitude (steady s))
    | change (lastLocationSend (steady s') = lastLocationSend (steady s))
    | change (lastGPSData (steady s') = lastGPSData (steady s))
    | change (gpsLEDState (steady s') = gpsLEDState (steady s))
    | change (systemLEDState (steady s') = systemLEDState (steady s))
    | change (geo (steady s') = geo (steady s))
    | change (trace (steady s') = trace (steady s)) ];
    now rewrite H.
Qed.

Lemma filter_mail_log (p : Event -> bool) (tr : list Event) :
  (forall ev, p ev = true -> is_mail_event ev = true) ->
  filter p (mail_log tr) = filter p tr.
Proof.
  intros Hp; unfold mail_log.
  induction tr as [| ev tr IH]; simpl; [reflexivity |].
  destruct (is_mail_event ev) eqn:Hm; simpl.
  - now rewrite IH.
  - destruct (p ev) eqn:Hpe; [| exact IH].
    apply Hp in Hpe; congruence.
Qed.

Lemma first_lock_calls_mail_log (tr : list Event) :
  first_lock_calls (mail_log tr) = first_lock_calls tr.
Proof.
  unfold first_lock_calls. rewrite filter_mail_log; [reflexivity |].
  intros [] H; try discriminate; reflexivity.
Qed.

Lemma send_steps_mail_log (tr : list Event) :
  send_steps (mail_log tr) = send_steps tr.
Proof.
  unfold send_steps. rewrite filter_mail_log; [reflexivity |].
  intros [] H; try discriminate; reflexivity.
Qed.

(** ** What sending an e-mail touches *)

Ltac count_events :=
  unfold first_lock_calls, periodic_calls, send_steps; simpl trace;
  rewrite ?filter_app, ?length_app; simpl; lia.

Lemma sendLocationEmail_keeps (e : Env) (m : MailEnv) (s : Device) :
  let s' := sendLocationEmail e m s in
  gpsDataValid s' = gpsDataValid s
  /\ firstGPSLock s' = firstGPSLock s
  /\ currentLatitude s' = currentLatitude s
  /\ currentLongitude s' = currentLongitude s
  /\ lastLocationSend s' = lastLocationSend s
  /\ lastGPSData s' = lastGPSData s
  /\ gpsLEDState s' = gpsLEDState s
  /\ systemLEDState s' = systemLEDState s
  /\ pinLevel s' = pinLevel s
  /\ digital_writes (trace s') = digital_writes (trace s).
Proof.
  unfold sendLocationEmail, getAddressFromCoordinates, digital_writes; cbv zeta.
  destruct s as [wl gl sl lu bs lat lng valid lock name sent seen g clk pins tr];
    simpl.
  destruct (wifi_connected e clk), valid, (geocode_reply m), (smtp_connect_ok m);
    simpl; rewrite ?filter_app; simpl; rewrite ?app_nil_r;
    repeat split; reflexivity.
Qed.

Lemma sendLocationEmail_counts (e : Env) (m : MailEnv) (s : Device) :
  let s' := sendLocationEmail e m s in
  first_lock_calls (trace s') = first_lock_calls (trace s)
  /\ periodic_calls (trace s') = periodic_calls (trace s)
  /\ send_steps (trace s') =
     (send_steps (trace s)
      + if wifi_connected e (clock s) && gpsDataValid s then 1 else 0)%nat.
Proof.
  unfold sendLocationEmail, getAddressFromCoordinates; cbv zeta.
  destruct s as [wl gl sl lu bs lat lng valid lock name sent seen g clk pins tr];
    simpl.
  destruct (wifi_connected e clk), valid, (geocode_reply m), (smtp_connect_ok m);
    simpl; repeat split; count_events.
Qed.

(** ** The first-lock invariant *)

Lemma first_lock_inv_steady (s s' : Device) :
  steady s' = steady s -> first_lock_inv s -> first_lock_inv s'.
Proof.
  intros H [Hc Hf]; unfold first_lock_inv.
  destruct (steady_reads _ _ H) as (Hv & Hl & _ & _ & _ & _ & _ & _ & _ & Hlog).
  rewrite Hv, Hl, <- first_lock_calls_mail_log, Hlog, first_lock_calls_mail_log.
  now split.
Qed.

Lemma on_gps_byte_fix (e : Env) (m : MailEnv) (lat lng : double) (s : Device) :
  on_gps_byte e m (Sentence (Some (lat, lng))) s =
  let s1 := setGPSLED LED_ON (set_gpsDataValid true (set_position lat lng s)) in
  if firstGPSLock s
  then sendLocationEmail e m
         (emit (Called_sendLocationEmail FirstLockSite (clock s))
               (set_firstGPSLock false s1))
  else s1.
Proof. reflexivity. Qed.

Lemma on_gps_byte_inv (e : Env) (m : MailEnv) (b : GpsByte) (s : Device) :
  first_lock_inv s -> first_lock_inv (on_gps_byte e m b s).
Proof.
  intros [Hc Hf]; unfold first_lock_inv.
  destruct b as [| [[lat lng] |]]; [now split | | now split].
  rewrite on_gps_byte_fix; cbv zeta.
  destruct (firstGPSLock s) eqn:Hlock.
  - destruct (gpsDataValid s) eqn:Hv; [discriminate |].
    match goal with |- context [sendLocationEmail e m ?x] =>
      destruct (sendLocationEmail_keeps e m x) as (Kv & Kl & _);
      destruct (sendLocationEmail_counts e m x) as (Cf & _);
      rewrite Kv, Kl, Cf
    end.
    simpl. split; [| reflexivity].
    unfold first_lock_calls in *; rewrite filter_app, length_app, Hc. reflexivity.
  - simpl. destruct (gpsDataValid s); [| discriminate]. now split.
Qed.

Lemma read_gps_inv (e : Env) (m : MailEnv) (bytes : list GpsByte) :
  forall s, first_lock_inv s -> first_lock_inv (read_gps e m bytes s).
Proof.
  induction bytes as [| b rest IH]; intros s H; simpl; [exact H |].
  apply IH, on_gps_byte_inv, H.
Qed.

Lemma updateGPSData_inv (e : Env) (bytes : list GpsByte) (m : MailEnv) (s : Device) :
  first_lock_inv s -> first_lock_inv (updateGPSData e bytes m s).
Proof.
  intros H; unfold updateGPSData; cbv zeta.
  pose proof (read_gps_inv e m bytes s H) as H'.
  destruct bytes; [| exact H'].
  destruct (sub32 (millis (read_gps e m [] s)) (lastGPSData (read_gps e m [] s))
            >? GPS_SILENCE); exact H'.
Qed.

Lemma loop_periodic_inv (e : Env) (m : MailEnv) (s : Device) :
  first_lock_inv s -> first_lock_inv (loop_periodic e m s).
Proof.
  intros [Hc Hf]; unfold first_lock_inv, loop_periodic.
  destruct (periodic_due s); [| now split].
  cbv zeta; simpl.
  match goal with |- context [sendLocationEmail e m ?x] =>
    destruct (sendLocationEmail_keeps e m x) as (Kv & Kl & _);
    destruct (sendLocationEmail_counts e m x) as (Cf & _)
  end.
  rewrite Kv, Kl, Cf; simpl. split; [| exact Hf].
  unfold first_lock_calls in *; rewrite filter_app, length_app, Hc; simpl. lia.
Qed.

Lemma loop_inv (e : Env) (t : TickEnv) (s : Device) :
  first_lock_inv s -> first_lock_inv (loop e t s).
Proof.
  intros H; unfold loop; cbv zeta.
  apply (first_lock_inv_steady _ _ (steady_delay 100 _)).
  apply loop_periodic_inv.
  apply (first_lock_inv_steady _ _ (steady_loop_geo t _)).
  apply updateGPSData_inv.
  apply (first_lock_inv_steady _ _ (steady_loop_reconnect e s)), H.
Qed.

Lemma run_inv (e : Env) (ticks : list TickEnv) :
  forall s, first_lock_inv s -> first_lock_inv (run e ticks s).
Proof.
  induction ticks as [| t rest IH]; intros s H; simpl; [exact H |].
  apply IH, loop_inv, H.
Qed.

Lemma steady_initializeLEDs (s : Device) : steady (initializeLEDs s) = steady s.
Proof.
  unfold initializeLEDs; cbv zeta.
  repeat (rewrite ?steady_digitalWrite, ?steady_delay). reflexivity.
Qed.

(** [setup] does not touch the GPS and alert variables. *)
Lemma alert_state_steady (s s' : Device) :
  steady s' = steady s -> alert_state s' = alert_state s.
Proof.
  intros H; unfold alert_state.
  destruct (steady_reads _ _ H) as (Hv & Hl & _ & _ & Hsend & _ & _ & _ & _ & Hlog).
  now rewrite Hv, Hl, Hsend, Hlog.
Qed.

Lemma alert_state_setWiFiLED (st : LEDState) (s : Device) :
  alert_state (setWiFiLED st s) = alert_state s.
Proof. reflexivity. Qed.

Lemma alert_state_setGPSLED (st : LEDState) (s : Device) :
  alert_state (setGPSLED st s) = alert_state s.
Proof. reflexivity. Qed.

Lemma alert_state_setSystemLED (st : LEDState) (s : Device) :
  alert_state (setSystemLED st s) = alert_state s.
Proof. reflexivity. Qed.

Lemma alert_state_set_geo (g : GeoLinker) (s : Device) :
  alert_state (set_geo g s) = alert_state s.
Proof. reflexivity. Qed.

Lemma alert_state_setup_until_sync (e : Env) (s : Device) :
  alert_state (setup_until_sync e s) = alert_state s.
Proof.
  unfold setup_until_sync; cbv zeta.
  rewrite (alert_state_steady _ _ (steady_connectToWiFi e _)).
  rewrite alert_state_setWiFiLED, alert_state_setGPSLED, alert_state_setSystemLED.
  rewrite (alert_state_steady _ _ (steady_initializeLEDs _)).
  apply alert_state_steady, steady_delay.
Qed.

Lemma alert_state_initializeGeoLinker (e : Env) (geo_wifi_ok : bool) (s : Device) :
  alert_state (initializeGeoLinker e geo_wifi_ok s) = alert_state s.
Proof.
  unfold initializeGeoLinker; cbv zeta.
  destruct (wifi_connected e (clock (set_geo _ s))); [destruct geo_wifi_ok |];
    now rewrite ?alert_state_setSystemLED, alert_state_set_geo.
Qed.

Lemma alert_state_setup (e : Env) (geo_wifi_ok : bool) (s : Device) :
  alert_state (setup e geo_wifi_ok s) = alert_state s.
Proof.
  unfold setup; cbv zeta.
  pose proof (steady_syncTime e (setup_until_sync e s)) as Hs.
  destruct (syncTime e (setup_until_sync e s)) as [synced s1].
  change (steady s1 = steady (setup_until_sync e s)) in Hs.
  rewrite alert_state_initializeGeoLinker.
  rewrite <- (alert_state_setup_until_sync e s),
          <- (alert_state_steady _ _ Hs).
  destruct synced; apply alert_state_setSystemLED.
Qed.

Lemma boot_inv (e : Env) (geo_wifi_ok : bool) (ticks : list TickEnv) :
  first_lock_inv (boot e geo_wifi_ok ticks).
Proof.
  unfold boot. apply run_inv.
  pose proof (alert_state_setup e geo_wifi_ok power_on) as H.
  unfold alert_state in H; injection H as Hv Hl _ Hlog.
  unfold first_lock_inv.
  rewrite Hv, Hl, <- first_lock_calls_mail_log, Hlog. now split.
Qed.

(** ** The validity flag only ever goes up *)

Lemma on_gps_byte_valid (e : Env) (m : MailEnv) (b : GpsByte) (s : Device) :
  gpsDataValid s = true -> gpsDataValid (on_gps_byte e m b s) = true.
Proof.
  intros H. destruct b as [| [[lat lng] |]]; [exact H | | exact H].
  rewrite on_gps_byte_fix; cbv zeta.
  destruct (firstGPSLock s); [| reflexivity].
  match goal with |- context [sendLocationEmail e m ?x] =>
    destruct (sendLocationEmail_keeps e m x) as (Kv & _); rewrite Kv
  end.
  reflexivity.
Qed.

Lemma read_gps_valid (e : Env) (m : MailEnv) (bytes : list GpsByte) :
  forall s, gpsDataValid s = true -> gpsDataValid (read_gps e m bytes s) = true.
Proof.
  induction bytes as [| b rest IH]; intros s H; simpl; [exact H |].
  apply IH, on_gps_byte_valid, H.
Qed.

Lemma updateGPSData_valid (e : Env) (bytes : list GpsByte) (m : MailEnv)
    (s : Device) :
  gpsDataValid s = true -> gpsDataValid (updateGPSData e bytes m s) = true.
Proof.
  intros H; unfold updateGPSData; cbv zeta.
  pose proof (read_gps_valid e m bytes s H) as H'.
  destruct bytes; [| exact H'].
  destruct (sub32 (millis (read_gps e m [] s)) (lastGPSData (read_gps e m [] s))
            >? GPS_SILENCE); exact H'.
Qed.

Lemma loop_periodic_keeps (e : Env) (m : MailEnv) (s : Device) :
  let s' := loop_periodic e m s in
  gpsDataValid s' = gpsDataValid s
  /\ firstGPSLock s' = firstGPSLock s
  /\ currentLatitude s' = currentLatitude s
  /\ currentLongitude s' = currentLongitude s
  /\ systemLEDState s' = systemLEDState s
  /\ gpsLEDState s' = gpsLEDState s
  /\ pinLevel s' = pinLevel s
  /\ digital_writes (trace s') = digital_writes (trace s).
Proof.
  unfold loop_periodic.
  destruct (periodic_due s); [| repeat split; reflexivity].
  cbv zeta.
  match goal with |- context [sendLocationEmail e m ?x] =>
    destruct (sendLocationEmail_keeps e m x)
      as (Kv & Kl & Klat & Klng & _ & _ & Kg & Ks & Kp & Kw)
  end.
  simpl; rewrite Kv, Kl, Klat, Klng, Kg, Ks, Kp, Kw.
  unfold digital_writes; simpl; rewrite filter_app; simpl; rewrite app_nil_r.
  repeat split; reflexivity.
Qed.

Lemma loop_valid (e : Env) (t : TickEnv) (s : Device) :
  gpsDataValid s = true -> gpsDataValid (loop e t s) = true.
Proof.
  intros H; unfold loop; cbv zeta.
  change (gpsDataValid (delay 100 ?x)) with (gpsDataValid x).
  rewrite (proj1 (loop_periodic_keeps e _ _)).
  rewrite (proj1 (steady_reads _ _ (steady_loop_geo t _))).
  apply updateGPSData_valid.
  now rewrite (proj1 (steady_reads _ _ (steady_loop_reconnect e s))).
Qed.

Lemma run_valid (e : Env) (ticks : list TickEnv) :
  forall s, gpsDataValid s = true -> gpsDataValid (run e ticks s) = true.
Proof.
  induction ticks as [| t rest IH]; intros s H; simpl; [exact H |].
  apply IH, loop_valid, H.
Qed.

(** ** First-lock alert *)

(** C3. The first time a sentence with a valid location is decoded the
    first-lock path calls sendLocationEmail once, whatever the link, the
    clock or the outcome of the send; firstGPSLock is cleared by it and
    never set again, so in every run the first-lock path has been taken
    exactly once if the fix has ever been valid and never otherwise. *)
Theorem first_lock_alert_fires_once :
  forall (e : Env) (geo_wifi_ok : bool) (ticks more : list TickEnv) (t : TickEnv),
    let s := boot e geo_wifi_ok ticks in
    first_lock_calls (trace s) = (if gpsDataValid s then 1 else 0)%nat
    /\ firstGPSLock s = negb (gpsDataValid s)
    /\ (gpsDataValid s = false -> gpsDataValid (loop e t s) = true ->
        first_lock_calls (trace (loop e t s)) = 1%nat)
    /\ (firstGPSLock s = false ->
        firstGPSLock (run e more s) = false
        /\ first_lock_calls (trace (run e more s)) = first_lock_calls (trace s))
    /\ (forall (m : MailEnv) (lat lng : double) (s0 : Device),
          firstGPSLock s0 = true ->
          let s1 := on_gps_byte e m (Sentence (Some (lat, lng))) s0 in
          first_lock_calls (trace s1) = S (first_lock_calls (trace s0))
          /\ firstGPSLock s1 = false
          /\ gpsDataValid s1 = true).
Proof.
  intros e geo_wifi_ok ticks more t s.
  destruct (boot_inv e geo_wifi_ok ticks) as [Hc Hf]; fold s in Hc, Hf.
  split; [exact Hc |]. split; [exact Hf |]. split; [| split].
  - intros _ Hv'.
    destruct (loop_inv e t s (conj Hc Hf)) as [Hc' _].
    now rewrite Hv' in Hc'.
  - intros Hlock.
    assert (Hv : gpsDataValid s = true)
      by (rewrite Hf in Hlock; now destruct (gpsDataValid s)).
    destruct (run_inv e more s (conj Hc Hf)) as [Hc' Hf'].
    rewrite (run_valid e more s Hv) in Hc', Hf'.
    rewrite Hv in Hc. split; [exact Hf' | congruence].
  - intros m lat lng s0 Hlock s1; subst s1.
    rewrite on_gps_byte_fix; cbv zeta; rewrite Hlock.
    match goal with |- context [sendLocationEmail e m ?x] =>
      destruct (sendLocationEmail_keeps e m x) as (Kv & Kl & _);
      destruct (sendLocationEmail_counts e m x) as (Cf & _);
      rewrite Kv, Kl, Cf
    end.
    split; [| split; reflexivity].
    unfold first_lock_calls; simpl; rewrite filter_app, length_app; simpl. lia.
Qed.

(** Two fixes in a row, then a silent tick: one first-lock call in all. *)
Lemma first_lock_alert_fires_once_witness :
  let s := boot always_online true [tick_searching; tick_fix] in
  firstGPSLock s = false
  /\ firstGPSLock (run always_online [tick_fix; tick_silent] s) = false
  /\ first_lock_calls (trace (run always_online [tick_fix; tick_silent] s))
     = first_lock_calls (trace s).
Proof.
  split; [vm_compute; reflexivity |].
  apply (proj1 (proj2 (proj2 (proj2
    (first_lock_alert_fires_once always_online true [tick_searching; tick_fix]
       [tick_fix; tick_silent] tick_silent))))).
  vm_compute; reflexivity.
Defined.

(** ** GPS silence *)

Lemma updateGPSData_silent (e : Env) (m : MailEnv) (s : Device) :
  updateGPSData e [] m s =
  if sub32 (millis s) (lastGPSData s) >? GPS_SILENCE
  then setGPSLED LED_OFF s else s.
Proof. reflexivity. Qed.

Lemma updateGPSData_after_silence (e : Env) (m : MailEnv) (s : Device) :
  sub32 (millis s) (lastGPSData s) > GPS_SILENCE ->
  updateGPSData e [] m s = setGPSLED LED_OFF s.
Proof.
  intros Hsilent. rewrite updateGPSData_silent.
  apply Z.gtb_gt in Hsilent. now rewrite Hsilent.
Qed.

(** C1, as the code has it. In a tick in which updateGPSData reads no byte
    and more than 5000 ms have passed since the last byte, the GPS
    indicator state becomes Off (which is not the searching state
    BlinkSlow) whatever it was before; that is the only change: the
    validity flag gpsDataValid keeps its value. *)
Theorem gps_silence_switches_indicator_off :
  forall (e : Env) (m : MailEnv) (s : Device),
    sub32 (millis s) (lastGPSData s) > GPS_SILENCE ->
    let s' := updateGPSData e [] m s in
    s' = setGPSLED LED_OFF s
    /\ gpsLEDState s' = LED_OFF
    /\ gpsLEDState s' <> LED_BLINK_SLOW
    /\ gpsDataValid s' = gpsDataValid s.
Proof.
  intros e m s Hsilent s'; subst s'.
  rewrite (updateGPSData_after_silence e m s Hsilent).
  repeat split; try reflexivity. discriminate.
Qed.

Lemma gps_silence_switches_indicator_off_witness :
  sub32 (millis locked_then_silent) (lastGPSData locked_then_silent) > GPS_SILENCE
  /\ gpsLEDState (updateGPSData always_online [] mail_ok locked_then_silent)
     = LED_OFF.
Proof.
  assert (H : sub32 (millis locked_then_silent) (lastGPSData locked_then_silent)
              > GPS_SILENCE) by (vm_compute; reflexivity).
  split; [exact H |].
  exact (proj1 (proj2
    (gps_silence_switches_indicator_off always_online mail_ok locked_then_silent H))).
Defined.

(** C1, as stated, fails: on that tracker the silent tick leaves
    gpsDataValid set. *)
Lemma gps_silence_keeps_validity_counterexample :
  sub32 (millis locked_then_silent) (lastGPSData locked_then_silent) > GPS_SILENCE
  /\ gpsDataValid locked_then_silent = true
  /\ gpsDataValid (updateGPSData always_online [] mail_ok locked_then_silent)
     <> false.
Proof.
  split; [vm_compute; reflexivity |].
  split; [vm_compute; reflexivity |].
  vm_compute; discriminate.
Qed.

(** ** Stale fixes keep being mailed *)

Lemma loop_silent_position (e : Env) (t : TickEnv) (s : Device) :
  gps_bytes t = [] ->
  currentLatitude (loop e t s) = currentLatitude s
  /\ currentLongitude (loop e t s) = currentLongitude s.
Proof.
  intros Hsilent; unfold loop; cbv zeta; rewrite Hsilent.
  change (currentLatitude (delay 100 ?x)) with (currentLatitude x).
  change (currentLongitude (delay 100 ?x)) with (currentLongitude x).
  destruct (loop_periodic_keeps e (periodic_mail t)
              (loop_geo t (updateGPSData e [] (lock_mail t) (loop_reconnect e s))))
    as (_ & _ & Hlat & Hlng & _).
  rewrite Hlat, Hlng.
  destruct (steady_reads _ _
              (steady_loop_geo t (updateGPSData e [] (lock_mail t) (loop_reconnect e s))))
    as (_ & _ & Hlat' & Hlng' & _).
  rewrite Hlat', Hlng', updateGPSData_silent.
  destruct (steady_reads _ _ (steady_loop_reconnect e s))
    as (_ & _ & Hlat'' & Hlng'' & _).
  destruct (sub32 (millis (loop_reconnect e s)) (lastGPSData (loop_reconnect e s))
            >? GPS_SILENCE); simpl; now rewrite Hlat'', Hlng''.
Qed.

Lemma run_silent_position (e : Env) (ticks : list TickEnv) :
  Forall (fun t => gps_bytes t = []) ticks ->
  forall s,
    currentLatitude (run e ticks s) = currentLatitude s
    /\ currentLongitude (run e ticks s) = currentLongitude s.
Proof.
  induction 1 as [| t rest Ht _ IH]; intros s; simpl; [now split |].
  destruct (IH (loop e t s)) as [Hlat Hlng].
  destruct (loop_silent_position e t s Ht) as [Hlat' Hlng'].
  split; congruence.
Qed.

Lemma loop_periodic_sends (e : Env) (m : MailEnv) (s : Device) :
  periodic_due s = true ->
  wifi_connected e (clock s) = true ->
  smtp_connect_ok m = true ->
  exists (sent_at : Z) (place stamp : string),
    trace (loop_periodic e m s) =
    trace s ++ [Called_sendLocationEmail PeriodicSite (clock s);
                SmtpConnect (clock s + Z.max 0 (geocode_ms m)) true;
                SendMail sent_at (currentLatitude s) (currentLongitude s)
                         place stamp (sendMail_ok m)].
Proof.
  intros Hdue Hwifi Hsmtp.
  assert (Hvalid : gpsDataValid s = true)
    by (unfold periodic_due in Hdue; now apply andb_true_iff in Hdue).
  unfold loop_periodic; rewrite Hdue.
  unfold sendLocationEmail, getAddressFromCoordinates; cbv zeta.
  destruct s as [wl gl sl lu bs lat lng valid lock name sent seen g clk pins tr].
  simpl in *. rewrite Hwifi, Hvalid, Hsmtp; simpl.
  destruct (geocode_reply m); simpl; rewrite <- !app_assoc; simpl;
    eexists; eexists; eexists; reflexivity.
Qed.

(** C7. Once gpsDataValid is true nothing resets it: it is still true after
    any number of loop iterations; the 5-second silence path changes the GPS
    LED state and nothing else; and while the GPS stays silent the stored
    coordinates stay as they are and the periodic path, when due with the
    link up, mails exactly those coordinates. *)
Theorem validity_flag_is_never_reset :
  forall (e : Env) (ticks : list TickEnv) (s : Device),
    gpsDataValid s = true ->
    gpsDataValid (run e ticks s) = true
    /\ (forall m : MailEnv,
          sub32 (millis s) (lastGPSData s) > GPS_SILENCE ->
          updateGPSData e [] m s = set_gpsLEDState LED_OFF s)
    /\ (Forall (fun t => gps_bytes t = []) ticks ->
        let s' := run e ticks s in
        currentLatitude s' = currentLatitude s
        /\ currentLongitude s' = currentLongitude s
        /\ periodic_due s'
           = (sub32 (millis s') (lastLocationSend s') >? LOCATION_SEND_INTERVAL)
        /\ forall m : MailEnv,
             periodic_due s' = true ->
             wifi_connected e (clock s') = true ->
             smtp_connect_ok m = true ->
             exists (sent_at : Z) (place stamp : string),
               trace (loop_periodic e m s') =
               trace s' ++ [Called_sendLocationEmail PeriodicSite (clock s');
                            SmtpConnect (clock s' + Z.max 0 (geocode_ms m)) true;
                            SendMail sent_at (currentLatitude s) (currentLongitude s)
                                     place stamp (sendMail_ok m)]).
Proof.
  intros e ticks s Hvalid.
  pose proof (run_valid e ticks s Hvalid) as Hvalid'.
  split; [exact Hvalid' |]. split.
  - intros m Hsilent.
    apply (updateGPSData_after_silence e m s Hsilent).
  - intros Hquiet s'; subst s'.
    destruct (run_silent_position e ticks Hquiet s) as [Hlat Hlng].
    split; [exact Hlat |]. split; [exact Hlng |]. split.
    + unfold periodic_due; rewrite Hvalid'; apply andb_true_r.
    + intros m Hdue Hwifi Hsmtp.
      rewrite <- Hlat, <- Hlng. now apply loop_periodic_sends.
Qed.

Lemma validity_flag_is_never_reset_witness :
  gpsDataValid locked_then_silent = true
  /\ gpsDataValid (run always_online (repeat tick_silent 100) locked_then_silent)
     = true.
Proof.
  assert (H : gpsDataValid locked_then_silent = true) by (vm_compute; reflexivity).
  split; [exact H |].
  exact (proj1 (validity_flag_is_never_reset always_online
                  (repeat tick_silent 100) locked_then_silent H)).
Defined.

(** ** The periodic alert *)

Lemma on_gps_byte_after_lock (e : Env) (m : MailEnv) (b : GpsByte) (s : Device) :
  firstGPSLock s = false ->
  firstGPSLock (on_gps_byte e m b s) = false
  /\ mail_log (trace (on_gps_byte e m b s)) = mail_log (trace s).
Proof.
  intros H. destruct b as [| [[lat lng] |]]; [now split | | now split].
  rewrite on_gps_byte_fix; cbv zeta; rewrite H. now split.
Qed.

Lemma read_gps_after_lock (e : Env) (m : MailEnv) (bytes : list GpsByte) :
  forall s, firstGPSLock s = false ->
    firstGPSLock (read_gps e m bytes s) = false
    /\ mail_log (trace (read_gps e m bytes s)) = mail_log (trace s).
Proof.
  induction bytes as [| b rest IH]; intros s H; simpl; [now split |].
  destruct (on_gps_byte_after_lock e m b s H) as [Hl Hlog].
  destruct (IH _ Hl) as [Hl' Hlog']. split; congruence.
Qed.

Lemma updateGPSData_after_lock (e : Env) (bytes : list GpsByte) (m : MailEnv)
    (s : Device) :
  firstGPSLock s = false ->
  firstGPSLock (updateGPSData e bytes m s) = false
  /\ mail_log (trace (updateGPSData e bytes m s)) = mail_log (trace s).
Proof.
  intros H; unfold updateGPSData; cbv zeta.
  pose proof (read_gps_after_lock e m bytes s H) as H'.
  destruct bytes; [| exact H'].
  destruct (sub32 (millis (read_gps e m [] s)) (lastGPSData (read_gps e m [] s))
            >? GPS_SILENCE); exact H'.
Qed.

Lemma loop_periodic_counts (e : Env) (m : MailEnv) (s : Device) :
  let s' := loop_periodic e m s in
  periodic_calls (trace s') =
    (periodic_calls (trace s) + if periodic_due s then 1 else 0)%nat
  /\ send_steps (trace s') =
    (send_steps (trace s)
     + if periodic_due s && wifi_connected e (clock s) then 1 else 0)%nat
  /\ first_lock_calls (trace s') = first_lock_calls (trace s).
Proof.
  unfold loop_periodic.
  destruct (periodic_due s) eqn:Hdue; [| simpl; repeat split; lia].
  assert (Hvalid : gpsDataValid s = true)
    by (unfold periodic_due in Hdue; now apply andb_true_iff in Hdue).
  cbv zeta.
  change (trace (set_lastLocationSend ?v ?x)) with (trace x).
  match goal with |- context [sendLocationEmail e m ?x] =>
    destruct (sendLocationEmail_counts e m x) as (Cf & Cp & Cs);
    rewrite Cf, Cp, Cs
  end.
  change (clock (emit ?ev s)) with (clock s).
  change (gpsDataValid (emit ?ev s)) with (gpsDataValid s).
  rewrite Hvalid, andb_true_r; simpl.
  repeat split; count_events.
Qed.

Lemma loop_at_periodic_check (e : Env) (t : TickEnv) (s : Device) :
  loop e t s = delay 100 (loop_periodic e (periodic_mail t) (at_periodic_check e t s)).
Proof. reflexivity. Qed.

(** C4, as the code has it. Once the first-lock alert is out, an iteration
    of loop reaches the send step exactly when, at its periodic check,
    millis() - lastLocationSend is strictly more than 5 minutes, the fix is
    valid and WiFi is connected; it then does so once. *)
Theorem periodic_alert_gate :
  forall (e : Env) (t : TickEnv) (s : Device),
    firstGPSLock s = false ->
    let c := at_periodic_check e t s in
    let elapsed := sub32 (millis c) (lastLocationSend c) in
    (send_steps (trace (loop e t s)) = S (send_steps (trace s))
       <-> elapsed > LOCATION_SEND_INTERVAL
           /\ gpsDataValid c = true
           /\ wifi_connected e (clock c) = true)
    /\ (send_steps (trace (loop e t s)) = send_steps (trace s)
       <-> ~ (elapsed > LOCATION_SEND_INTERVAL
              /\ gpsDataValid c = true
              /\ wifi_connected e (clock c) = true))
    /\ first_lock_calls (trace (loop e t s)) = first_lock_calls (trace s).
Proof.
  intros e t s Hlock c elapsed.
  rewrite loop_at_periodic_check; fold c.
  change (trace (delay 100 ?x)) with (trace x).
  destruct (loop_periodic_counts e (periodic_mail t) c) as (_ & Hs & Hf).
  rewrite Hs, Hf.
  assert (Hlog : mail_log (trace c) = mail_log (trace s)).
  { unfold c, at_periodic_check.
    rewrite (proj2 (proj2 (proj2 (proj2 (proj2 (proj2 (proj2 (proj2 (proj2
              (steady_reads _ _ (steady_loop_geo t _))))))))))).
    destruct (steady_reads _ _ (steady_loop_reconnect e s))
      as (_ & Hl & _ & _ & _ & _ & _ & _ & _ & Hlog).
    rewrite <- Hlog. apply updateGPSData_after_lock. congruence. }
  rewrite <- (send_steps_mail_log (trace c)),
          <- (first_lock_calls_mail_log (trace c)), Hlog,
          send_steps_mail_log, first_lock_calls_mail_log.
  unfold periodic_due; fold elapsed.
  destruct (Z.gtb_spec elapsed LOCATION_SEND_INTERVAL) as [Hgt | Hle];
    destruct (gpsDataValid c); destruct (wifi_connected e (clock c)); simpl;
    (split; [| split; [| reflexivity]]); split; intros H;
    try lia; try (repeat split; (reflexivity || lia));
    try (destruct H as (? & ? & ?); (discriminate || lia));
    try (exfalso; apply H; repeat split; (reflexivity || lia));
    try (intros (? & ? & ?); (discriminate || lia)).
Qed.

(** Ten iterations after the first lock the throttle window is still open. *)
Lemma periodic_alert_gate_witness :
  let s := boot always_online true (tick_fix :: repeat tick_searching 10) in
  firstGPSLock s = false
  /\ first_lock_calls (trace (loop always_online tick_searching s))
     = first_lock_calls (trace s).
Proof.
  assert (H : firstGPSLock
                (boot always_online true (tick_fix :: repeat tick_searching 10))
              = false) by (vm_compute; reflexivity).
  split; [exact H |].
  exact (proj2 (proj2 (periodic_alert_gate always_online tick_searching _ H))).
Defined.

(** C4, as stated, fails at the boundary: with exactly 300000 ms elapsed, a
    valid fix and the link up, the iteration sends nothing. *)
Lemma periodic_alert_boundary_counterexample :
  let c := at_periodic_check always_online tick_searching five_minutes_sharp in
  firstGPSLock five_minutes_sharp = false
  /\ sub32 (millis c) (lastLocationSend c) >= LOCATION_SEND_INTERVAL
  /\ gpsDataValid c = true
  /\ wifi_connected always_online (clock c) = true
  /\ mail_log (trace (loop always_online tick_searching five_minutes_sharp))
     = mail_log (trace five_minutes_sharp).
Proof.
  cbv zeta.
  split; [vm_compute; reflexivity |].
  split; [vm_compute; discriminate |].
  split; [vm_compute; reflexivity |].
  split; vm_compute; reflexivity.
Qed.

(** ** The throttle timestamp *)

Lemma periodic_due_within_window (s0 s2 : Device) :
  lastLocationSend s2 = millis s0 ->
  clock s0 <= clock s2 <= clock s0 + LOCATION_SEND_INTERVAL ->
  periodic_due s2 = false.
Proof.
  intros Hlast Hclock; unfold periodic_due.
  rewrite Hlast; unfold millis.
  replace (clock s2) with (clock s0 + (clock s2 - clock s0)) by lia.
  rewrite sub32_elapsed
    by (unfold LOCATION_SEND_INTERVAL, two32 in *; simpl; lia).
  destruct (Z.gtb_spec (clock s2 - clock s0) LOCATION_SEND_INTERVAL);
    [lia | reflexivity].
Qed.

(** C5, as the code has it. Every call of sendLocationEmail on the periodic
    path is followed by lastLocationSend = millis(), whether the call
    stopped at the WiFi/GPS guard, failed to connect, failed to send or
    succeeded; so the periodic path is not taken again during the next
    5 minutes.  An iteration whose periodic guard is false changes nothing. *)
Theorem periodic_call_restarts_throttle :
  forall (e : Env) (m : MailEnv) (s : Device),
    let s' := loop_periodic e m s in
    (periodic_due s = true ->
       lastLocationSend s' = millis s'
       /\ periodic_calls (trace s') = S (periodic_calls (trace s))
       /\ forall s2 : Device,
            lastLocationSend s2 = lastLocationSend s' ->
            clock s' <= clock s2 <= clock s' + LOCATION_SEND_INTERVAL ->
            periodic_due s2 = false)
    /\ (periodic_due s = false -> s' = s).
Proof.
  intros e m s s'; subst s'. split; intros Hdue.
  - destruct (loop_periodic_counts e m s) as (Hp & _).
    rewrite Hdue in Hp.
    assert (Hlast : lastLocationSend (loop_periodic e m s)
                    = millis (loop_periodic e m s)).
    { unfold loop_periodic; rewrite Hdue; cbv zeta.
      generalize (sendLocationEmail e m
                    (emit (Called_sendLocationEmail PeriodicSite (clock s)) s)).
      reflexivity. }
    split; [exact Hlast |]. split; [rewrite Hp; lia |].
    intros s2 H2 Hclock. apply (periodic_due_within_window (loop_periodic e m s)).
    + congruence.
    + exact Hclock.
  - unfold loop_periodic; now rewrite Hdue.
Qed.

Lemma periodic_call_restarts_throttle_witness :
  periodic_due offline_and_due = true
  /\ lastLocationSend (loop_periodic link_lost_at_200s mail_ok offline_and_due)
     = millis (loop_periodic link_lost_at_200s mail_ok offline_and_due).
Proof.
  assert (H : periodic_due offline_and_due = true) by (vm_compute; reflexivity).
  split; [exact H |].
  exact (proj1 (proj1
    (periodic_call_restarts_throttle link_lost_at_200s mail_ok offline_and_due) H)).
Defined.

(** C5, as stated, fails: here the periodic call stops at the guard, never
    reaching the send step, and the throttle timestamp moves all the same. *)
Lemma throttle_consumed_without_send_counterexample :
  let s' := loop_periodic link_lost_at_200s mail_ok offline_and_due in
  wifi_connected link_lost_at_200s (clock offline_and_due) = false
  /\ periodic_calls (trace s') = S (periodic_calls (trace offline_and_due))
  /\ send_steps (trace s') = send_steps (trace offline_and_due)
  /\ lastLocationSend offline_and_due = 0
  /\ lastLocationSend s' = 300400.
Proof.
  cbv zeta.
  split; [vm_compute; reflexivity |].
  split; [vm_compute; reflexivity |].
  split; [vm_compute; reflexivity |].
  split; vm_compute; reflexivity.
Qed.

(** ** Two e-mails in one iteration *)

(** The first-lock path sends without touching the throttle timestamp. *)
Lemma on_gps_byte_keeps_lastLocationSend (e : Env) (m : MailEnv) (b : GpsByte)
    (s : Device) :
  lastLocationSend (on_gps_byte e m b s) = lastLocationSend s.
Proof.
  destruct b as [| [[lat lng] |]]; [reflexivity | | reflexivity].
  rewrite on_gps_byte_fix; cbv zeta.
  destruct (firstGPSLock s); [| reflexivity].
  match goal with |- context [sendLocationEmail e m ?x] =>
    destruct (sendLocationEmail_keeps e m x) as (_ & _ & _ & _ & Kt & _);
    rewrite Kt
  end.
  reflexivity.
Qed.

(** C6. The code breaks the claim: when the first fix arrives more than
    5 minutes after power-on, the first-lock path mails it and, in the same
    iteration, the periodic path mails it again, 4.8 s later; the first-lock
    path does not set lastLocationSend. *)
Theorem first_lock_and_periodic_mail_in_one_iteration :
  let s' := loop always_online tick_fix late_first_lock in
  firstGPSLock late_first_lock = true
  /\ sendMail_times (trace late_first_lock) = []
  /\ firstGPSLock s' = false
  /\ mail_log (trace s') =
     [Called_sendLocationEmail FirstLockSite 301900;
      SmtpConnect 302700 true;
      SendMail 304200 kolkata_lat kolkata_lng "Salt Lake, Kolkata" "2026-09-21 12:00:00 IST" true;
      Called_sendLocationEmail PeriodicSite 306700;
      SmtpConnect 307500 true;
      SendMail 309000 kolkata_lat kolkata_lng "Salt Lake, Kolkata" "2026-09-21 12:00:00 IST" true]
  /\ sendMail_times (trace s') = [304200; 309000]
  /\ 309000 - 304200 < LOCATION_SEND_INTERVAL.
Proof.
  cbv zeta.
  split; [vm_compute; reflexivity |].
  split; [vm_compute; reflexivity |].
  split; [vm_compute; reflexivity |].
  split; [vm_compute; reflexivity |].
  split; vm_compute; reflexivity.
Qed.

(** ** Rendering in the main loop *)

Lemma on_gps_byte_pins (e : Env) (m : MailEnv) (b : GpsByte) (s : Device) :
  pinLevel (on_gps_byte e m b s) = pinLevel s
  /\ digital_writes (trace (on_gps_byte e m b s)) = digital_writes (trace s).
Proof.
  destruct b as [| [[lat lng] |]]; [now split | | now split].
  rewrite on_gps_byte_fix; cbv zeta.
  destruct (firstGPSLock s); [| now split].
  match goal with |- context [sendLocationEmail e m ?x] =>
    destruct (sendLocationEmail_keeps e m x)
      as (_ & _ & _ & _ & _ & _ & _ & _ & Kp & Kw); rewrite Kp, Kw
  end.
  unfold digital_writes; simpl; rewrite filter_app; simpl; rewrite app_nil_r.
  now split.
Qed.

Lemma read_gps_pins (e : Env) (m : MailEnv) (bytes : list GpsByte) :
  forall s,
    pinLevel (read_gps e m bytes s) = pinLevel s
    /\ digital_writes (trace (read_gps e m bytes s)) = digital_writes (trace s).
Proof.
  induction bytes as [| b rest IH]; intros s; simpl; [now split |].
  destruct (IH (on_gps_byte e m b s)) as [Hp Hw].
  destruct (on_gps_byte_pins e m b s) as [Hp' Hw']. split; congruence.
Qed.

Lemma updateGPSData_pins (e : Env) (bytes : list GpsByte) (m : MailEnv)
    (s : Device) :
  pinLevel (updateGPSData e bytes m s) = pinLevel s
  /\ digital_writes (trace (updateGPSData e bytes m s)) = digital_writes (trace s).
Proof.
  unfold updateGPSData; cbv zeta.
  pose proof (read_gps_pins e m bytes s) as H.
  destruct bytes; [| exact H].
  destruct (sub32 (millis (read_gps e m [] s)) (lastGPSData (read_gps e m [] s))
            >? GPS_SILENCE); exact H.
Qed.

Lemma loop_geo_pins (t : TickEnv) (s : Device) :
  pinLevel (loop_geo t s) = pinLevel s
  /\ digital_writes (trace (loop_geo t s)) = digital_writes (trace s).
Proof.
  unfold loop_geo, handleGeoLinkerStatus, digital_writes; cbv zeta.
  destruct (geo_status t >? 0); simpl; [| now split].
  rewrite filter_app; simpl; rewrite app_nil_r. now split.
Qed.

(** With the link up, an iteration of [loop] drives no pin at all. *)
Lemma loop_online_renders_nothing (e : Env) (t : TickEnv) (s : Device) :
  wifi_connected e (clock s) = true ->
  pinLevel (loop e t s) = pinLevel s
  /\ digital_writes (trace (loop e t s)) = digital_writes (trace s).
Proof.
  intros Hwifi. rewrite loop_at_periodic_check.
  change (pinLevel (delay 100 ?x)) with (pinLevel x).
  change (trace (delay 100 ?x)) with (trace x).
  destruct (loop_periodic_keeps e (periodic_mail t) (at_periodic_check e t s))
    as (_ & _ & _ & _ & _ & _ & Hp & Hw).
  rewrite Hp, Hw. unfold at_periodic_check.
  destruct (loop_geo_pins t
              (updateGPSData e (gps_bytes t) (lock_mail t) (loop_reconnect e s)))
    as [Hp1 Hw1].
  destruct (updateGPSData_pins e (gps_bytes t) (lock_mail t) (loop_reconnect e s))
    as [Hp2 Hw2].
  rewrite Hp1, Hw1, Hp2, Hw2.
  unfold loop_reconnect; rewrite Hwifi. now split.
Qed.

(** C2. The code breaks the claim: loop never calls updateLEDs.  In the
    iteration in which the first fix arrives the GPS indicator state becomes
    On, yet no pin is written and the green LED stays dark; the indicator
    states had been rendered during setup only. *)
Theorem loop_does_not_render_indicators :
  let s := boot always_online true [] in
  let s' := loop always_online tick_fix s in
  gpsLEDState s = LED_BLINK_SLOW
  /\ gpsLEDState s' = LED_ON
  /\ pinLevel s' LED_GPS_PIN = LOW
  /\ digital_writes (trace s') = digital_writes (trace s)
  /\ mail_log (trace s') =
     [Called_sendLocationEmail FirstLockSite 1900;
      SmtpConnect 2700 true;
      SendMail 4200 kolkata_lat kolkata_lng "Salt Lake, Kolkata" "2026-09-21 12:00:00 IST" true].
Proof.
  cbv zeta.
  split; [vm_compute; reflexivity |].
  split; [vm_compute; reflexivity |].
  split; [vm_compute; reflexivity |].
  split; vm_compute; reflexivity.
Qed.

(** ** The polling loops end by their own guard *)

Lemma clock_controlLED (pin : Z) (st : LEDState) (s : Device) :
  clock (controlLED pin st s) = clock s.
Proof. now destruct st. Qed.

Lemma clock_updateLEDs (s : Device) : clock (updateLEDs s) = clock s.
Proof.
  rewrite updateLEDs_unfold; cbv zeta. rewrite !clock_controlLED.
  unfold blink_tick.
  now destruct (sub32 (millis s) (lastLEDUpdate s) >=? LED_BLINK_INTERVAL).
Qed.

Lemma clock_poll (s : Device) : clock (updateLEDs (delay 500 s)) = clock s + 500.
Proof. now rewrite clock_updateLEDs. Qed.

Lemma elapsed_after_polls (c0 k : Z) (s : Device) :
  clock s = c0 + 500 * k -> 0 <= k <= 41 ->
  sub32 (millis s) (c0 mod two32) = 500 * k.
Proof.
  intros Hc Hk; unfold millis; rewrite Hc.
  apply sub32_elapsed. change two32 with 4294967296. lia.
Qed.

Lemma connectToWiFi_wait_exit (e : Env) (c0 : Z) :
  forall (rounds : nat) (k : Z) (s : Device),
    clock s = c0 + 500 * k -> 0 <= k -> k + Z.of_nat rounds = 41 ->
    let s' := connectToWiFi_wait e (c0 mod two32) rounds s in
    negb (wifi_connected e (clock s'))
    && (sub32 (millis s') (c0 mod two32) <? WIFI_TIMEOUT) = false.
Proof.
  induction rounds as [| rounds IH]; intros k s Hc Hk Hsum; simpl.
  - rewrite (elapsed_after_polls c0 k s Hc) by lia.
    apply andb_false_iff; right. apply Z.ltb_ge. unfold WIFI_TIMEOUT; lia.
  - destruct (negb (wifi_connected e (clock s))
              && (sub32 (millis s) (c0 mod two32) <? WIFI_TIMEOUT)) eqn:G;
      [| exact G].
    apply (IH (k + 1)); [rewrite clock_poll; lia | lia | lia].
Qed.

Lemma syncTime_wait_exit (e : Env) (c0 : Z) :
  forall (rounds : nat) (k now : Z) (s : Device),
    clock s = c0 + 500 * k -> 0 <= k -> k + Z.of_nat rounds = 21 ->
    let r := syncTime_wait e (c0 mod two32) rounds now s in
    (fst r <? TIME_SANE)
    && (sub32 (millis (snd r)) (c0 mod two32) <? SYNC_TIMEOUT) = false.
Proof.
  induction rounds as [| rounds IH]; intros k now s Hc Hk Hsum; simpl.
  - rewrite (elapsed_after_polls c0 k s Hc) by lia.
    apply andb_false_iff; right. apply Z.ltb_ge. unfold SYNC_TIMEOUT; lia.
  - destruct ((now <? TIME_SANE)
              && (sub32 (millis s) (c0 mod two32) <? SYNC_TIMEOUT)) eqn:G;
      [| exact G].
    apply (IH (k + 1)); [rewrite clock_poll; lia | lia | lia].
Qed.

(** The 41 rounds of [connectToWiFi] and the 21 rounds of [syncTime] are
    enough: each loop is left because its own condition has become false. *)
Lemma connectToWiFi_wait_ends_by_guard (e : Env) (s : Device) :
  let s' := connectToWiFi_wait e (millis s) 41 s in
  wifi_connected e (clock s') = true
  \/ sub32 (millis s') (millis s) >= WIFI_TIMEOUT.
Proof.
  cbv zeta.
  pose proof (connectToWiFi_wait_exit e (clock s) 41 0 s) as H.
  cbv zeta in H. fold (millis s) in H.
  apply andb_false_iff in H; [| lia | lia | reflexivity].
  destruct H as [H | H].
  - left. now apply negb_false_iff in H.
  - right. apply Z.ltb_ge in H. lia.
Qed.

Lemma syncTime_wait_ends_by_guard (e : Env) (s : Device) :
  let r := syncTime_wait e (millis s) 21 (wall_clock e (clock s)) s in
  TIME_SANE <= fst r
  \/ sub32 (millis (snd r)) (millis s) >= SYNC_TIMEOUT.
Proof.
  cbv zeta.
  pose proof (syncTime_wait_exit e (clock s) 21 0 (wall_clock e (clock s)) s) as H.
  cbv zeta in H. fold (millis s) in H.
  apply andb_false_iff in H; [| lia | lia | reflexivity].
  destruct H as [H | H].
  - left. now apply Z.ltb_ge in H.
  - right. apply Z.ltb_ge in H. lia.
Qed.

(** ** Time synchronisation failure *)

Lemma syncTime_wait_below (e : Env) (c0 : Z) :
  (forall t, c0 <= t <= c0 + SYNC_TIMEOUT -> wall_clock e t < TIME_SANE) ->
  forall (rounds : nat) (k now : Z) (s : Device),
    clock s = c0 + 500 * k -> 0 <= k -> k + Z.of_nat rounds <= 21 ->
    now < TIME_SANE ->
    fst (syncTime_wait e (c0 mod two32) rounds now s) < TIME_SANE.
Proof.
  intros Hlow.
  induction rounds as [| rounds IH]; intros k now s Hc Hk Hsum Hnow; simpl;
    [exact Hnow |].
  destruct ((now <? TIME_SANE)
            && (sub32 (millis s) (c0 mod two32) <? SYNC_TIMEOUT)) eqn:G;
    [| exact Hnow].
  apply andb_true_iff in G as [_ G]. apply Z.ltb_lt in G.
  rewrite (elapsed_after_polls c0 k s Hc) in G by lia.
  unfold SYNC_TIMEOUT in *.
  apply (IH (k + 1)); [rewrite clock_poll; lia | lia | lia |].
  apply Hlow. rewrite clock_poll. lia.
Qed.

Lemma syncTime_fails (e : Env) (s : Device) :
  (forall t, clock s <= t <= clock s + SYNC_TIMEOUT -> wall_clock e t < TIME_SANE) ->
  fst (syncTime e s) = false.
Proof.
  intros Hlow; unfold syncTime; cbv zeta.
  assert (H : fst (syncTime_wait e (millis s) 21 (wall_clock e (clock s)) s)
              < TIME_SANE).
  { apply (syncTime_wait_below e (clock s) Hlow 21 0); try lia.
    apply Hlow. unfold SYNC_TIMEOUT; lia. }
  destruct (syncTime_wait e (millis s) 21 (wall_clock e (clock s)) s) as [now s'].
  simpl in H. apply Z.ltb_lt in H. now rewrite H.
Qed.

Lemma on_gps_byte_system (e : Env) (m : MailEnv) (b : GpsByte) (s : Device) :
  systemLEDState (on_gps_byte e m b s) = systemLEDState s.
Proof.
  destruct b as [| [[lat lng] |]]; [reflexivity | | reflexivity].
  rewrite on_gps_byte_fix; cbv zeta.
  destruct (firstGPSLock s); [| reflexivity].
  match goal with |- context [sendLocationEmail e m ?x] =>
    destruct (sendLocationEmail_keeps e m x)
      as (_ & _ & _ & _ & _ & _ & _ & Ks & _); rewrite Ks
  end.
  reflexivity.
Qed.

Lemma read_gps_system (e : Env) (m : MailEnv) (bytes : list GpsByte) :
  forall s, systemLEDState (read_gps e m bytes s) = systemLEDState s.
Proof.
  induction bytes as [| b rest IH]; intros s; simpl; [reflexivity |].
  rewrite IH. apply on_gps_byte_system.
Qed.

Lemma updateGPSData_system (e : Env) (bytes : list GpsByte) (m : MailEnv)
    (s : Device) :
  systemLEDState (updateGPSData e bytes m s) = systemLEDState s.
Proof.
  unfold updateGPSData; cbv zeta.
  pose proof (read_gps_system e m bytes s) as H.
  destruct bytes; [| exact H].
  destruct (sub32 (millis (read_gps e m [] s)) (lastGPSData (read_gps e m [] s))
            >? GPS_SILENCE); exact H.
Qed.

Lemma loop_system (e : Env) (t : TickEnv) (s : Device) :
  systemLEDState (loop e t s) = systemLEDState s.
Proof.
  rewrite loop_at_periodic_check.
  change (systemLEDState (delay 100 ?x)) with (systemLEDState x).
  destruct (loop_periodic_keeps e (periodic_mail t) (at_periodic_check e t s))
    as (_ & _ & _ & _ & Hs & _).
  rewrite Hs. unfold at_periodic_check.
  destruct (steady_reads _ _ (steady_loop_geo t
             (updateGPSData e (gps_bytes t) (lock_mail t) (loop_reconnect e s))))
    as (_ & _ & _ & _ & _ & _ & _ & Hs1 & _).
  destruct (steady_reads _ _ (steady_loop_reconnect e s))
    as (_ & _ & _ & _ & _ & _ & _ & Hs2 & _).
  now rewrite Hs1, updateGPSData_system, Hs2.
Qed.

Lemma run_system (e : Env) (ticks : list TickEnv) :
  forall s, systemLEDState (run e ticks s) = systemLEDState s.
Proof.
  induction ticks as [| t rest IH]; intros s; simpl; [reflexivity |].
  rewrite IH. apply loop_system.
Qed.

Lemma setup_after_failed_sync (e : Env) (geo_wifi_ok : bool) (s : Device) :
  fst (syncTime e (setup_until_sync e s)) = false ->
  systemLEDState (setup e geo_wifi_ok s) = LED_BLINK_SLOW
  /\ geo_begun (geo (setup e geo_wifi_ok s)) = true.
Proof.
  unfold setup; cbv zeta.
  destruct (syncTime e (setup_until_sync e s)) as [synced s1]; simpl.
  intros ->; simpl. unfold initializeGeoLinker; cbv zeta.
  destruct (wifi_connected e _); [destruct geo_wifi_ok |]; now split.
Qed.

(** C9. If the wall clock stays below the sanity threshold during the 10 s
    of polling, syncTime returns false; setup nevertheless runs to its end
    (GeoLinker is initialised), the system indicator is BlinkSlow, the
    warning state, and stays so in the main loop; and a timestamp rendered
    while the wall clock is below the threshold is the label
    "Time not synchronized". *)
Theorem time_sync_failure_is_a_warning :
  forall (e : Env) (geo_wifi_ok : bool),
    let s0 := setup_until_sync e power_on in
    (forall t, clock s0 <= t <= clock s0 + SYNC_TIMEOUT ->
               wall_clock e t < TIME_SANE) ->
    fst (syncTime e s0) = false
    /\ systemLEDState (setup e geo_wifi_ok power_on) = LED_BLINK_SLOW
    /\ geo_begun (geo (setup e geo_wifi_ok power_on)) = true
    /\ (forall ticks : list TickEnv,
          systemLEDState (boot e geo_wifi_ok ticks) = LED_BLINK_SLOW)
    /\ (forall s : Device,
          wall_clock e (clock s) < TIME_SANE ->
          getCurrentTimestamp e s = "Time not synchronized").
Proof.
  intros e geo_wifi_ok s0 Hlow.
  pose proof (syncTime_fails e s0 Hlow) as Hfail.
  destruct (setup_after_failed_sync e geo_wifi_ok power_on Hfail) as [Hled Hgeo].
  split; [exact Hfail |]. split; [exact Hled |]. split; [exact Hgeo |]. split.
  - intros ticks. unfold boot. now rewrite run_system.
  - intros s Hs. unfold getCurrentTimestamp; cbv zeta.
    apply Z.ltb_lt in Hs. now rewrite Hs.
Qed.

(** No network at all: the wall clock still counts from the power-on epoch. *)
Lemma time_sync_failure_is_a_warning_witness :
  fst (syncTime never_online (setup_until_sync never_online power_on)) = false
  /\ systemLEDState (setup never_online false power_on) = LED_BLINK_SLOW.
Proof.
  assert (H : forall t,
             clock (setup_until_sync never_online power_on) <= t
               <= clock (setup_until_sync never_online power_on) + SYNC_TIMEOUT ->
             wall_clock never_online t < TIME_SANE).
  { intros t. replace (clock (setup_until_sync never_online power_on)) with 21900
      by (vm_compute; reflexivity).
    unfold SYNC_TIMEOUT, TIME_SANE; simpl. intros Ht.
    apply Z.div_lt_upper_bound; lia. }
  split.
  - exact (proj1 (time_sync_failure_is_a_warning never_online false H)).
  - exact (proj1 (proj2 (time_sync_failure_is_a_warning never_online false H))).
Defined.

(** ** The offline buffer *)

Lemma setup_configures_geo (e : Env) (geo_wifi_ok : bool) (s : Device) :
  geo (setup e geo_wifi_ok s) =
  mkGeoLinker true updateInterval enableOfflineStorage enableAutoReconnect
              offlineBufferLimit (timeOffsetHours, timeOffsetMinutes).
Proof.
  unfold setup; cbv zeta.
  destruct (syncTime e (setup_until_sync e s)) as [synced s1].
  unfold initializeGeoLinker; cbv zeta.
  destruct (wifi_connected e _); [destruct geo_wifi_ok |]; reflexivity.
Qed.

Module BufferFacts.
Import TelemetrySyncBuffer.

Lemma length_stamp (fixes : list (double * double)) :
  forall first_seq, List.length (stamp first_seq fixes) = List.length fixes.
Proof.
  induction fixes as [| [lat lng] rest IH]; intros first_seq; simpl;
    [reflexivity | now rewrite IH].
Qed.

Lemma entries_push (cap : nat) (lat lng : double) (b : Buffer) :
  (0 < cap)%nat -> (List.length (entries b) <= cap)%nat ->
  entries (push cap lat lng b) =
  skipn (List.length (entries b) + 1 - cap)
        (entries b ++ [mkEntry lat lng (next_seq b)]).
Proof.
  intros Hcap Hlen; unfold push; cbv zeta; simpl.
  destruct (Nat.leb_spec cap (List.length (entries b))) as [Hfull | Hroom].
  - replace (List.length (entries b) + 1 - cap)%nat with 1%nat by lia.
    destruct (entries b) as [| x rest]; [simpl in *; lia | reflexivity].
  - now replace (List.length (entries b) + 1 - cap)%nat with 0%nat by lia.
Qed.

Lemma length_entries_push (cap : nat) (lat lng : double) (b : Buffer) :
  (0 < cap)%nat -> (List.length (entries b) <= cap)%nat ->
  (List.length (entries (push cap lat lng b)) <= cap)%nat.
Proof.
  intros Hcap Hlen. rewrite entries_push by assumption.
  rewrite length_skipn, length_app; simpl. lia.
Qed.

(** After any run of pushes the buffer holds the newest [cap] of what it
    held before followed by what was pushed. *)
Lemma entries_push_all (cap : nat) (fixes : list (double * double)) :
  (0 < cap)%nat ->
  forall b : Buffer,
    (List.length (entries b) <= cap)%nat ->
    entries (push_all cap fixes b) =
    skipn (List.length (entries b) + List.length fixes - cap)
          (entries b ++ stamp (next_seq b) fixes).
Proof.
  intros Hcap.
  induction fixes as [| [lat lng] rest IH]; intros b Hlen; simpl.
  - rewrite app_nil_r.
    now replace (List.length (entries b) + 0 - cap)%nat with 0%nat by lia.
  - rewrite IH by now apply length_entries_push.
    change (next_seq (push cap lat lng b)) with (next_seq b + 1).
    rewrite entries_push by assumption.
    set (d := (List.length (entries b) + 1 - cap)%nat).
    set (x := mkEntry lat lng (next_seq b)).
    assert (Hd : (d <= List.length (entries b ++ [x]))%nat)
      by (rewrite length_app; simpl; lia).
    replace (skipn d (entries b ++ [x]) ++ stamp (next_seq b + 1) rest)
      with (skipn d ((entries b ++ [x]) ++ stamp (next_seq b + 1) rest)).
    + rewrite skipn_skipn, <- app_assoc; simpl.
      rewrite length_skipn, length_app; simpl.
      f_equal. lia.
    + rewrite skipn_app.
      replace (d - List.length (entries b ++ [x]))%nat with 0%nat by lia.
      reflexivity.
Qed.

End BufferFacts.

(** C10. The sketch configures an offline limit of 50.  A buffer that
    starts empty and is pushed to while the link is down never holds more
    than 50 entries: it holds the newest 50 of the entries pushed, in order;
    a push on a full buffer drops the oldest entry and appends the new one,
    a push on a buffer with room only appends. *)
Theorem offline_buffer_keeps_newest_entries :
  forall (e : Env) (geo_wifi_ok : bool) (fixes : list (double * double)),
    let cap := Z.to_nat (geo_offlineBufferLimit (geo (setup e geo_wifi_ok power_on))) in
    let b := TelemetrySyncBuffer.push_all cap fixes TelemetrySyncBuffer.empty in
    cap = 50%nat
    /\ (List.length (TelemetrySyncBuffer.entries b) <= cap)%nat
    /\ TelemetrySyncBuffer.entries b
       = skipn (List.length fixes - cap) (TelemetrySyncBuffer.stamp 1 fixes)
    /\ (forall lat lng : double,
          List.length (TelemetrySyncBuffer.entries b) = cap ->
          TelemetrySyncBuffer.entries (TelemetrySyncBuffer.push cap lat lng b)
          = tl (TelemetrySyncBuffer.entries b)
            ++ [TelemetrySyncBuffer.mkEntry lat lng (TelemetrySyncBuffer.next_seq b)])
    /\ (forall lat lng : double,
          (List.length (TelemetrySyncBuffer.entries b) < cap)%nat ->
          TelemetrySyncBuffer.entries (TelemetrySyncBuffer.push cap lat lng b)
          = TelemetrySyncBuffer.entries b
            ++ [TelemetrySyncBuffer.mkEntry lat lng (TelemetrySyncBuffer.next_seq b)]).
Proof.
  intros e geo_wifi_ok fixes cap b.
  assert (Hcap : cap = 50%nat)
    by (unfold cap; rewrite setup_configures_geo; reflexivity).
  assert (Hentries : TelemetrySyncBuffer.entries b
            = skipn (List.length fixes - cap) (TelemetrySyncBuffer.stamp 1 fixes)).
  { unfold b. rewrite BufferFacts.entries_push_all; simpl; [reflexivity | lia | lia]. }
  split; [exact Hcap |]. split; [| split; [exact Hentries | split]].
  - rewrite Hentries, length_skipn, BufferFacts.length_stamp. lia.
  - intros lat lng Hfull. unfold TelemetrySyncBuffer.push; cbv zeta; simpl.
    rewrite Hfull, Nat.leb_refl. reflexivity.
  - intros lat lng Hroom. unfold TelemetrySyncBuffer.push; cbv zeta; simpl.
    destruct (Nat.leb_spec cap (List.length (TelemetrySyncBuffer.entries b)));
      [lia | reflexivity].
Qed.

(** 51 pushes with the link down: entries 2..51 are kept, entry 1 is gone. *)
Lemma offline_buffer_keeps_newest_entries_witness :
  let b := TelemetrySyncBuffer.push_all 50 (repeat kolkata 50)
             TelemetrySyncBuffer.empty in
  let b' := TelemetrySyncBuffer.push 50 kolkata_lat kolkata_lng b in
  List.length (TelemetrySyncBuffer.entries b) = 50%nat
  /\ map TelemetrySyncBuffer.entry_seq (TelemetrySyncBuffer.entries b')
     = map Z.of_nat (seq 2 50)
  /\ TelemetrySyncBuffer.entries b'
     = tl (TelemetrySyncBuffer.entries b)
       ++ [TelemetrySyncBuffer.mkEntry kolkata_lat kolkata_lng (TelemetrySyncBuffer.next_seq b)].
Proof.
  assert (H : List.length (TelemetrySyncBuffer.entries
                (TelemetrySyncBuffer.push_all 50 (repeat kolkata 50)
                   TelemetrySyncBuffer.empty)) = 50%nat)
    by (vm_compute; reflexivity).
  split; [exact H |]. split; [vm_compute; reflexivity |].
  pose proof (offline_buffer_keeps_newest_entries always_online true
                (repeat kolkata 50)) as T.
  cbv zeta in T. destruct T as (Hcap & _ & _ & Hfull & _).
  rewrite Hcap in Hfull. apply Hfull. exact H.
Defined.

(** * Further properties of the sketch *)

(** ** Rendering by updateLEDs *)

Lemma pinLevel_controlLED_same (pin : Z) (st : LEDState) (s : Device) :
  pinLevel (controlLED pin st s) pin = rendered st (ledBlinkState s) (millis s).
Proof.
  destruct st; unfold controlLED, rendered; rewrite pinLevel_digitalWrite_same;
    try reflexivity.
  - now destruct (ledBlinkState s).
  - change (LED_FAST_BLINK_INTERVAL * 2) with 400.
    change LED_FAST_BLINK_INTERVAL with 200.
    now destruct (millis s mod 400 <? 200).
Qed.

Lemma ledBlinkState_controlLED (pin : Z) (st : LEDState) (s : Device) :
  ledBlinkState (controlLED pin st s) = ledBlinkState s
  /\ lastLEDUpdate (controlLED pin st s) = lastLEDUpdate s.
Proof. now destruct st. Qed.

Lemma blink_after_updateLEDs (s : Device) :
  ledBlinkState (updateLEDs s) = ledBlinkState (blink_tick s)
  /\ lastLEDUpdate (updateLEDs s) = lastLEDUpdate (blink_tick s)
  /\ millis (updateLEDs s) = millis s.
Proof.
  rewrite updateLEDs_unfold; cbv zeta.
  rewrite !(proj1 (ledBlinkState_controlLED _ _ _)),
          !(proj2 (ledBlinkState_controlLED _ _ _)), !millis_controlLED.
  repeat split. apply blink_tick_keeps.
Qed.

Lemma toggle_after_updateLEDs (s : Device) :
  ledBlinkState (updateLEDs s)
  = if sub32 (millis s) (lastLEDUpdate s) >=? LED_BLINK_INTERVAL
    then negb (ledBlinkState s) else ledBlinkState s.
Proof.
  rewrite (proj1 (blink_after_updateLEDs s)). unfold blink_tick.
  now destruct (sub32 (millis s) (lastLEDUpdate s) >=? LED_BLINK_INTERVAL).
Qed.

(** X1. One call of updateLEDs drives each of the three pins from its own
    channel's state: Off gives LOW, On gives HIGH, BlinkSlow gives the shared
    toggle (so all slow-blinking channels show the same level), BlinkFast the
    200 ms phase of millis(); the toggle flips exactly when at least 500 ms
    have passed since it last flipped; no other pin and no channel state is
    changed. *)
Theorem updateLEDs_renders_every_channel :
  forall s : Device,
    let s' := updateLEDs s in
    pinLevel s' LED_WIFI_PIN
      = rendered (wifiLEDState s) (ledBlinkState s') (millis s)
    /\ pinLevel s' LED_GPS_PIN
      = rendered (gpsLEDState s) (ledBlinkState s') (millis s)
    /\ pinLevel s' LED_SYSTEM_PIN
      = rendered (systemLEDState s) (ledBlinkState s') (millis s)
    /\ (forall p : Z,
          p <> LED_WIFI_PIN -> p <> LED_GPS_PIN -> p <> LED_SYSTEM_PIN ->
          pinLevel s' p = pinLevel s p)
    /\ wifiLEDState s' = wifiLEDState s
    /\ gpsLEDState s' = gpsLEDState s
    /\ systemLEDState s' = systemLEDState s
    /\ ledBlinkState s'
       = (if sub32 (millis s) (lastLEDUpdate s) >=? LED_BLINK_INTERVAL
          then negb (ledBlinkState s) else ledBlinkState s).
Proof.
  intros s s'.
  destruct (blink_after_updateLEDs s) as (Hb & _ & _).
  destruct (blink_tick_keeps s) as (Hm & Hw & Hg & Hs).
  assert (Hpins : LED_WIFI_PIN <> LED_GPS_PIN /\ LED_WIFI_PIN <> LED_SYSTEM_PIN
                  /\ LED_GPS_PIN <> LED_SYSTEM_PIN)
    by (unfold LED_WIFI_PIN, LED_GPS_PIN, LED_SYSTEM_PIN; lia).
  destruct Hpins as (H24 & H25 & H45).
  subst s'. rewrite !Hb. rewrite updateLEDs_unfold; cbv zeta.
  repeat split.
  - rewrite !pinLevel_controlLED_other by assumption.
    now rewrite pinLevel_controlLED_same, Hw, Hm.
  - rewrite pinLevel_controlLED_other by assumption.
    rewrite pinLevel_controlLED_same, millis_controlLED, Hg, Hm.
    now rewrite (proj1 (ledBlinkState_controlLED _ _ _)).
  - rewrite pinLevel_controlLED_same, !millis_controlLED, Hs, Hm.
    now rewrite !(proj1 (ledBlinkState_controlLED _ _ _)).
  - intros p Hp2 Hp4 Hp5.
    rewrite !pinLevel_controlLED_other by assumption.
    unfold blink_tick.
    now destruct (sub32 (millis s) (lastLEDUpdate s) >=? LED_BLINK_INTERVAL).
  - now rewrite !(proj1 (controlLED_keeps_states _ _ _)).
  - now rewrite !(proj1 (proj2 (controlLED_keeps_states _ _ _))).
  - now rewrite !(proj2 (proj2 (controlLED_keeps_states _ _ _))).
  - unfold blink_tick.
    now destruct (sub32 (millis s) (lastLEDUpdate s) >=? LED_BLINK_INTERVAL).
Qed.

(** GPIO13 is none of the three LED pins. *)
Lemma updateLEDs_renders_every_channel_witness :
  pinLevel (updateLEDs (connectToWiFi never_online power_on)) 13
  = pinLevel (connectToWiFi never_online power_on) 13.
Proof.
  apply (proj1 (proj2 (proj2 (proj2
           (updateLEDs_renders_every_channel
              (connectToWiFi never_online power_on))))));
    unfold LED_WIFI_PIN, LED_GPS_PIN, LED_SYSTEM_PIN; lia.
Defined.

(** ** The slow-blink cadence *)

Lemma sub32_later (c d last : Z) :
  sub32 ((c + d) mod two32) last = (sub32 (c mod two32) last + d) mod two32.
Proof.
  unfold sub32.
  rewrite Zminus_mod_idemp_l, Zplus_mod_idemp_l.
  replace (c mod two32 - last + d) with (c mod two32 + (d - last)) by lia.
  rewrite Zplus_mod_idemp_l. f_equal. lia.
Qed.

Lemma since_last_flip (s : Device) :
  let s1 := updateLEDs s in
  0 <= sub32 (millis s1) (lastLEDUpdate s1) < LED_BLINK_INTERVAL.
Proof.
  cbv zeta.
  destruct (blink_after_updateLEDs s) as (_ & Hl & Hm). rewrite Hl, Hm.
  unfold blink_tick.
  destruct (Z.geb_spec (sub32 (millis s) (lastLEDUpdate s)) LED_BLINK_INTERVAL)
    as [Hge | Hlt].
  - simpl. unfold sub32. rewrite Z.sub_diag.
    unfold LED_BLINK_INTERVAL. now rewrite Z.mod_0_l by (unfold two32; lia).
  - split; [| exact Hlt].
    apply Z.mod_pos_bound. reflexivity.
Qed.

(** X2. Slow-blink cadence. A call of updateLEDs that comes 500 ms or more
    after the previous call always flips the shared toggle (also across the
    wrap of millis()); a call that comes less than 500 ms after a flip never
    does. *)
Theorem slow_blink_flips_every_500ms :
  forall (s : Device) (d : Z),
    let s1 := updateLEDs s in
    let s2 := updateLEDs (delay d s1) in
    (LED_BLINK_INTERVAL <= d <= two32 - LED_BLINK_INTERVAL ->
       ledBlinkState s2 = negb (ledBlinkState s1))
    /\ (0 <= d < LED_BLINK_INTERVAL ->
        lastLEDUpdate s1 = millis s1 ->
        ledBlinkState s2 = ledBlinkState s1).
Proof.
  intros s d s1 s2.
  pose proof (since_last_flip s) as He. cbv zeta in He. fold s1 in He.
  pose proof (toggle_after_updateLEDs (delay d s1)) as Hflip.
  fold s2 in Hflip.
  change (ledBlinkState (delay d s1)) with (ledBlinkState s1) in Hflip.
  change (lastLEDUpdate (delay d s1)) with (lastLEDUpdate s1) in Hflip.
  unfold LED_BLINK_INTERVAL in *.
  split.
  - intros Hd.
    assert (Hms : millis (delay d s1) = (clock s1 + d) mod two32)
      by (unfold millis, delay; simpl; now rewrite Z.max_r by lia).
    rewrite Hms, sub32_later in Hflip. fold (millis s1) in Hflip.
    rewrite Z.mod_small in Hflip by (unfold two32 in *; lia).
    destruct (Z.geb_spec (sub32 (millis s1) (lastLEDUpdate s1) + d) 500);
      [exact Hflip | lia].
  - intros Hd Hjust.
    assert (Hms : millis (delay d s1) = (clock s1 + d) mod two32)
      by (unfold millis, delay; simpl; now rewrite Z.max_r by lia).
    rewrite Hms, sub32_later in Hflip. fold (millis s1) in Hflip.
    rewrite Hjust in Hflip. unfold sub32 at 1 in Hflip.
    rewrite Z.sub_diag, Z.mod_0_l in Hflip by (unfold two32; lia).
    rewrite Z.mod_small in Hflip by (unfold two32; lia).
    destruct (Z.geb_spec (0 + d) 500); [lia | exact Hflip].
Qed.

(** The polls of a connection attempt are 500 ms apart. *)
Lemma slow_blink_flips_every_500ms_witness :
  let s1 := updateLEDs (connectToWiFi never_online power_on) in
  LED_BLINK_INTERVAL <= 500 <= two32 - LED_BLINK_INTERVAL
  /\ ledBlinkState (updateLEDs (delay 500 s1)) = negb (ledBlinkState s1).
Proof.
  assert (H : LED_BLINK_INTERVAL <= 500 <= two32 - LED_BLINK_INTERVAL)
    by (unfold LED_BLINK_INTERVAL, two32; lia).
  split; [exact H |].
  exact (proj1 (slow_blink_flips_every_500ms
                  (connectToWiFi never_online power_on) 500) H).
Defined.

(** ** How a connection attempt ends *)

Lemma connectToWiFi_wait_outcome (e : Env) (c0 : Z) :
  forall (rounds : nat) (k : Z) (s : Device),
    clock s = c0 + 500 * k -> 0 <= k <= 40 -> k + Z.of_nat rounds = 41 ->
    let s' := connectToWiFi_wait e (c0 mod two32) rounds s in
    exists n : Z,
      k <= n <= 40
      /\ clock s' = c0 + 500 * n
      /\ (forall j, k <= j < n -> wifi_connected e (c0 + 500 * j) = false)
      /\ (n < 40 -> wifi_connected e (c0 + 500 * n) = true).
Proof.
  induction rounds as [| rounds IH]; intros k s Hc Hk Hsum;
    cbn [connectToWiFi_wait]; [lia |].
  rewrite (elapsed_after_polls c0 k s Hc) by lia.
  destruct (wifi_connected e (clock s)) eqn:Hwifi; cbn [negb andb].
  - exists k. rewrite <- Hc.
    split; [lia |]. split; [reflexivity |]. split; [intros j Hj; lia |].
    intros _; exact Hwifi.
  - destruct (Z.ltb_spec (500 * k) WIFI_TIMEOUT) as [Hlt | Hge];
      unfold WIFI_TIMEOUT in *.
    + destruct (IH (k + 1) (updateLEDs (delay 500 s)))
        as (n & Hn & Hcn & Hdown & Hup);
        [rewrite clock_poll; lia | lia | lia |].
      exists n.
      split; [lia |]. split; [exact Hcn |]. split; [| exact Hup].
      intros j Hj. destruct (Z.eq_dec j k) as [-> | Hne].
      * now rewrite <- Hc.
      * apply Hdown; lia.
    + exists k.
      split; [lia |]. split; [exact Hc |]. split; intros; lia.
Qed.

Lemma connectToWiFi_unfold (e : Env) (s : Device) :
  connectToWiFi e s =
  let w := connectToWiFi_wait e (millis s) 41
             (setWiFiLED LED_BLINK_SLOW (emit (WiFiBegin (clock s)) s)) in
  if wifi_connected e (clock w)
  then setWiFiLED LED_ON w
  else setWiFiLED LED_BLINK_FAST w.
Proof. reflexivity. Qed.

Lemma connectToWiFi_outcome (e : Env) (s : Device) :
  let s' := connectToWiFi e s in
  (exists n : Z,
      0 <= n <= 40
      /\ clock s' = clock s + 500 * n
      /\ (forall j, 0 <= j < n -> wifi_connected e (clock s + 500 * j) = false)
      /\ (n < 40 -> wifi_connected e (clock s') = true))
  /\ wifiLEDState s'
     = (if wifi_connected e (clock s') then LED_ON else LED_BLINK_FAST).
Proof.
  cbv zeta. rewrite connectToWiFi_unfold; cbv zeta.
  destruct (connectToWiFi_wait_outcome e (clock s) 41 0
              (setWiFiLED LED_BLINK_SLOW (emit (WiFiBegin (clock s)) s)))
    as (n & Hn & Hcn & Hdown & Hup);
    [cbn [clock setWiFiLED set_wifiLEDState emit]; lia | lia | reflexivity |].
  cbv zeta in Hcn. fold (millis s) in Hcn.
  remember (connectToWiFi_wait e (millis s) 41
              (setWiFiLED LED_BLINK_SLOW (emit (WiFiBegin (clock s)) s))) as w
    eqn:Hw.
  clear Hw.
  assert (Hclock : forall st, clock (setWiFiLED st w) = clock w)
    by reflexivity.
  assert (Hstate : forall st, wifiLEDState (setWiFiLED st w) = st)
    by reflexivity.
  destruct (wifi_connected e (clock w)) eqn:Hwifi;
    rewrite Hclock, Hstate, Hwifi, Hcn; (split; [| reflexivity]);
    exists n; (split; [lia |]); (split; [reflexivity |]);
    (split; [exact Hdown |]); intros Hlt.
  - reflexivity.
  - specialize (Hup Hlt). rewrite Hcn in Hwifi. congruence.
Qed.

(** X3. A connection attempt polls every 500 ms and returns at the first
    poll that finds the link up, or after 40 polls (20 s) at the latest; the
    link indicator state is then On if the link is up and BlinkFast if not.
    So an attempt started with the link up takes no time, and one during
    which the link never comes up takes exactly 20000 ms and ends in
    BlinkFast. *)
Theorem connectToWiFi_ends_within_20s :
  forall (e : Env) (s : Device),
    let s' := connectToWiFi e s in
    (exists n : Z,
        0 <= n <= 40
        /\ clock s' = clock s + 500 * n
        /\ (forall j, 0 <= j < n -> wifi_connected e (clock s + 500 * j) = false)
        /\ (n < 40 -> wifi_connected e (clock s') = true))
    /\ wifiLEDState s'
       = (if wifi_connected e (clock s') then LED_ON else LED_BLINK_FAST)
    /\ (wifi_connected e (clock s) = true -> clock s' = clock s)
    /\ ((forall j, 0 <= j <= 40 -> wifi_connected e (clock s + 500 * j) = false) ->
        clock s' = clock s + WIFI_TIMEOUT /\ wifiLEDState s' = LED_BLINK_FAST).
Proof.
  intros e s s'.
  destruct (connectToWiFi_outcome e s) as [Hex Hled]. fold s' in Hex, Hled.
  split; [exact Hex |]. split; [exact Hled |].
  destruct Hex as (n & Hn & Hcn & Hdown & Hup). split.
  - intros Hup0.
    destruct (Z.eq_dec n 0) as [-> | Hne]; [lia |].
    specialize (Hdown 0 ltac:(lia)). rewrite Z.mul_0_r, Z.add_0_r in Hdown.
    congruence.
  - intros Hnever.
    assert (Hn40 : n = 40).
    { destruct (Z.lt_ge_cases n 40) as [Hlt | Hge]; [| lia].
      specialize (Hup Hlt). rewrite Hcn, (Hnever n) in Hup by lia.
      discriminate. }
    subst n. unfold WIFI_TIMEOUT. split; [lia |].
    rewrite Hled, Hcn. now rewrite (Hnever 40) by lia.
Qed.

Lemma connectToWiFi_ends_within_20s_witness :
  wifi_connected always_online (clock power_on) = true
  /\ clock (connectToWiFi always_online power_on) = clock power_on.
Proof.
  assert (H : wifi_connected always_online (clock power_on) = true)
    by reflexivity.
  split; [exact H |].
  exact (proj1 (proj2 (proj2
           (connectToWiFi_ends_within_20s always_online power_on))) H).
Defined.

(** ** How the time synchronisation ends *)

Lemma syncTime_wait_outcome (e : Env) (c0 : Z) :
  forall (rounds : nat) (k now : Z) (s : Device),
    clock s = c0 + 500 * k -> 0 <= k <= 20 -> k + Z.of_nat rounds = 21 ->
    now = wall_clock e (clock s) ->
    let r := syncTime_wait e (c0 mod two32) rounds now s in
    exists n : Z,
      k <= n <= 20
      /\ clock (snd r) = c0 + 500 * n
      /\ fst r = wall_clock e (c0 + 500 * n)
      /\ (forall j, k <= j < n -> wall_clock e (c0 + 500 * j) < TIME_SANE)
      /\ (n < 20 -> TIME_SANE <= wall_clock e (c0 + 500 * n)).
Proof.
  induction rounds as [| rounds IH]; intros k now s Hc Hk Hsum Hnow;
    cbn [syncTime_wait]; [lia |].
  rewrite (elapsed_after_polls c0 k s Hc) by lia.
  destruct (Z.ltb_spec now TIME_SANE) as [Hlow | Hsane]; cbn [andb].
  - destruct (Z.ltb_spec (500 * k) SYNC_TIMEOUT) as [Hlt | Hge];
      unfold SYNC_TIMEOUT in *.
    + destruct (IH (k + 1) (wall_clock e (clock (updateLEDs (delay 500 s))))
                   (updateLEDs (delay 500 s)))
        as (n & Hn & Hcn & Hr & Hbelow & Hup);
        [rewrite clock_poll; lia | lia | lia | reflexivity |].
      exists n.
      split; [lia |]. split; [exact Hcn |]. split; [exact Hr |].
      split; [| exact Hup].
      intros j Hj. destruct (Z.eq_dec j k) as [-> | Hne].
      * rewrite <- Hc, <- Hnow. exact Hlow.
      * apply Hbelow; lia.
    + exists k. cbn [fst snd]. rewrite <- Hc, <- Hnow.
      split; [lia |]. split; [reflexivity |]. split; [reflexivity |].
      split; intros; lia.
  - exists k. cbn [fst snd]. rewrite <- Hc, <- Hnow.
    split; [lia |]. split; [reflexivity |]. split; [reflexivity |].
    split; [intros; lia | intros _; exact Hsane].
Qed.

Lemma syncTime_unfold (e : Env) (s : Device) :
  syncTime e s =
  let r := syncTime_wait e (millis s) 21 (wall_clock e (clock s)) s in
  (negb (fst r <? TIME_SANE), snd r).
Proof.
  unfold syncTime; cbv zeta.
  destruct (syncTime_wait e (millis s) 21 (wall_clock e (clock s)) s)
    as [now w]; cbn [fst snd].
  now destruct (now <? TIME_SANE).
Qed.

Lemma syncTime_outcome (e : Env) (s : Device) :
  let r := syncTime e s in
  (exists n : Z,
      0 <= n <= 20
      /\ clock (snd r) = clock s + 500 * n
      /\ (forall j, 0 <= j < n -> wall_clock e (clock s + 500 * j) < TIME_SANE)
      /\ (n < 20 -> fst r = true))
  /\ (fst r = true <-> TIME_SANE <= wall_clock e (clock (snd r))).
Proof.
  cbv zeta.
  destruct (syncTime_wait_outcome e (clock s) 21 0 (wall_clock e (clock s)) s)
    as (n & Hn & Hcn & Hr & Hbelow & Hup);
    [lia | lia | reflexivity | reflexivity |].
  cbv zeta in Hcn, Hr. fold (millis s) in Hcn, Hr.
  rewrite syncTime_unfold; cbv zeta.
  remember (syncTime_wait e (millis s) 21 (wall_clock e (clock s)) s) as r
    eqn:Heqr.
  clear Heqr. destruct r as [now w]. cbn [fst snd] in *.
  rewrite Hcn, Hr.
  split.
  - exists n. split; [lia |]. split; [reflexivity |]. split; [exact Hbelow |].
    intros Hlt. specialize (Hup Hlt).
    destruct (Z.ltb_spec (wall_clock e (clock s + 500 * n)) TIME_SANE);
      [lia | reflexivity].
  - destruct (Z.ltb_spec (wall_clock e (clock s + 500 * n)) TIME_SANE);
      cbn [negb]; split; intros Hx; (lia || discriminate || reflexivity).
Qed.

(** X4. syncTime polls the wall clock every 500 ms and returns at the first
    poll that reads at least 8*3600*2 seconds, or after 20 polls (10 s) at
    the latest; it returns true exactly when the reading it stopped on has
    reached that threshold.  With a clock that is already set it takes no
    time. *)
Theorem syncTime_ends_within_10s :
  forall (e : Env) (s : Device),
    let r := syncTime e s in
    (exists n : Z,
        0 <= n <= 20
        /\ clock (snd r) = clock s + 500 * n
        /\ (forall j, 0 <= j < n -> wall_clock e (clock s + 500 * j) < TIME_SANE)
        /\ (n < 20 -> fst r = true))
    /\ (fst r = true <-> TIME_SANE <= wall_clock e (clock (snd r)))
    /\ (TIME_SANE <= wall_clock e (clock s) -> clock (snd r) = clock s).
Proof.
  intros e s r.
  destruct (syncTime_outcome e s) as [Hex Hiff]. fold r in Hex, Hiff.
  split; [exact Hex |]. split; [exact Hiff |].
  destruct Hex as (n & Hn & Hcn & Hbelow & _).
  intros Hset.
  destruct (Z.eq_dec n 0) as [-> | Hne]; [lia |].
  specialize (Hbelow 0 ltac:(lia)). rewrite Z.mul_0_r, Z.add_0_r in Hbelow.
  lia.
Qed.

Lemma syncTime_ends_within_10s_witness :
  TIME_SANE <= wall_clock always_online (clock power_on)
  /\ clock (snd (syncTime always_online power_on)) = clock power_on.
Proof.
  assert (H : TIME_SANE <= wall_clock always_online (clock power_on))
    by (vm_compute; discriminate).
  split; [exact H |].
  exact (proj2 (proj2 (syncTime_ends_within_10s always_online power_on)) H).
Defined.

(** ** How long setup takes *)

Lemma clock_digitalWrite (pin : Z) (level : bool) (s : Device) :
  clock (digitalWrite pin level s) = clock s.
Proof. reflexivity. Qed.

Lemma clock_delay (ms : Z) (s : Device) :
  clock (delay ms s) = clock s + Z.max 0 ms.
Proof. reflexivity. Qed.

Lemma clock_initializeLEDs (s : Device) :
  clock (initializeLEDs s) = clock s + 900.
Proof.
  unfold initializeLEDs; cbv zeta.
  repeat (rewrite ?clock_digitalWrite, ?clock_delay).
  change (Z.max 0 300) with 300. lia.
Qed.

Lemma clock_before_connect (s : Device) :
  clock (setWiFiLED LED_BLINK_SLOW
           (setGPSLED LED_BLINK_SLOW
              (setSystemLED LED_BLINK_SLOW (initializeLEDs (delay 1000 s)))))
  = clock s + 1900.
Proof.
  assert (Hw : forall st x, clock (setWiFiLED st x) = clock x) by reflexivity.
  assert (Hg : forall st x, clock (setGPSLED st x) = clock x) by reflexivity.
  assert (Hs : forall st x, clock (setSystemLED st x) = clock x) by reflexivity.
  rewrite Hw, Hg, Hs, clock_initializeLEDs, clock_delay.
  change (Z.max 0 1000) with 1000. lia.
Qed.

Lemma clock_initializeGeoLinker (e : Env) (geo_wifi_ok : bool) (s : Device) :
  clock (initializeGeoLinker e geo_wifi_ok s) = clock s.
Proof.
  unfold initializeGeoLinker; cbv zeta.
  destruct (wifi_connected e _); [destruct geo_wifi_ok |]; reflexivity.
Qed.

Lemma clock_setup (e : Env) (geo_wifi_ok : bool) (s : Device) :
  clock (setup e geo_wifi_ok s)
  = clock (snd (syncTime e (setup_until_sync e s))).
Proof.
  unfold setup; cbv zeta.
  destruct (syncTime e (setup_until_sync e s)) as [synced s1]; cbn [snd].
  rewrite clock_initializeGeoLinker. now destruct synced.
Qed.



(** ** The indicator states in use *)

Lemma wifiLED_updateLEDs (s : Device) :
  wifiLEDState (updateLEDs s) = wifiLEDState s.
Proof.
  rewrite updateLEDs_unfold; cbv zeta.
  rewrite !(proj1 (controlLED_keeps_states _ _ _)).
  apply blink_tick_keeps.
Qed.

Lemma wifiLED_syncTime_wait (e : Env) (start : Z) (rounds : nat) :
  forall now s,
    wifiLEDState (snd (syncTime_wait e start rounds now s)) = wifiLEDState s.
Proof.
  induction rounds as [| rounds IH]; intros now s; cbn [syncTime_wait];
    [reflexivity |].
  destruct ((now <? TIME_SANE) && (sub32 (millis s) start <? SYNC_TIMEOUT));
    [| reflexivity].
  cbv zeta. rewrite IH. now rewrite wifiLED_updateLEDs.
Qed.

Lemma wifiLED_syncTime (e : Env) (s : Device) :
  wifiLEDState (snd (syncTime e s)) = wifiLEDState s.
Proof.
  rewrite syncTime_unfold; cbv zeta; cbn [snd]. apply wifiLED_syncTime_wait.
Qed.

Lemma wifiLED_sendLocationEmail (e : Env) (m : MailEnv) (s : Device) :
  wifiLEDState (sendLocationEmail e m s) = wifiLEDState s
  /\ clock s <= clock (sendLocationEmail e m s).
Proof.
  unfold sendLocationEmail, getAddressFromCoordinates; cbv zeta.
  destruct s as [wl gl sl lu bs lat lng valid lock name sent seen g clk pins tr];
    cbn -[Z.max Z.add].
  destruct (wifi_connected e clk), valid, (geocode_reply m), (smtp_connect_ok m);
    cbn -[Z.max Z.add]; split; try reflexivity.
    all: try lia.
Qed.

Lemma wifiLED_on_gps_byte (e : Env) (m : MailEnv) (b : GpsByte) (s : Device) :
  wifiLEDState (on_gps_byte e m b s) = wifiLEDState s
  /\ clock s <= clock (on_gps_byte e m b s).
Proof.
  destruct b as [| [[lat lng] |]];
    [split; [reflexivity | apply Z.le_refl] |
     | split; [reflexivity | apply Z.le_refl]].
  rewrite on_gps_byte_fix; cbv zeta.
  destruct (firstGPSLock s); [| split; [reflexivity | apply Z.le_refl]].
  match goal with |- context [sendLocationEmail e m ?x] =>
    destruct (wifiLED_sendLocationEmail e m x) as [Hw Hc]; rewrite Hw
  end.
  split; [reflexivity | exact Hc].
Qed.

Lemma wifiLED_read_gps (e : Env) (m : MailEnv) (bytes : list GpsByte) :
  forall s,
    wifiLEDState (read_gps e m bytes s) = wifiLEDState s
    /\ clock s <= clock (read_gps e m bytes s).
Proof.
  induction bytes as [| b rest IH]; intros s; cbn [read_gps];
    [split; [reflexivity | apply Z.le_refl] |].
  destruct (IH (on_gps_byte e m b s)) as [Hw Hc].
  destruct (wifiLED_on_gps_byte e m b s) as [Hw' Hc'].
  split; [congruence | lia].
Qed.

Lemma wifiLED_updateGPSData (e : Env) (bytes : list GpsByte) (m : MailEnv)
    (s : Device) :
  wifiLEDState (updateGPSData e bytes m s) = wifiLEDState s
  /\ clock s <= clock (updateGPSData e bytes m s).
Proof.
  unfold updateGPSData; cbv zeta.
  pose proof (wifiLED_read_gps e m bytes s) as H.
  destruct bytes; [| exact H].
  destruct (sub32 (millis (read_gps e m [] s)) (lastGPSData (read_gps e m [] s))
            >? GPS_SILENCE); exact H.
Qed.

Lemma wifiLED_loop_geo (t : TickEnv) (s : Device) :
  wifiLEDState (loop_geo t s) = wifiLEDState s
  /\ clock s <= clock (loop_geo t s).
Proof.
  unfold loop_geo, handleGeoLinkerStatus; cbv zeta.
  destruct (geo_status t >? 0); cbn -[Z.max Z.add]; split; try reflexivity; lia.
Qed.

Lemma wifiLED_loop_periodic (e : Env) (m : MailEnv) (s : Device) :
  wifiLEDState (loop_periodic e m s) = wifiLEDState s
  /\ clock s <= clock (loop_periodic e m s).
Proof.
  unfold loop_periodic.
  destruct (periodic_due s); [| split; [reflexivity | apply Z.le_refl]].
  cbv zeta.
  match goal with |- context [sendLocationEmail e m ?x] =>
    destruct (wifiLED_sendLocationEmail e m x) as [Hw Hc]
  end.
  split; [exact Hw | exact Hc].
Qed.

(** What an iteration of [loop] does to the link indicator state. *)
Lemma wifiLED_loop (e : Env) (t : TickEnv) (s : Device) :
  wifiLEDState (loop e t s) = wifiLEDState (loop_reconnect e s).
Proof.
  rewrite loop_at_periodic_check. unfold at_periodic_check.
  change (wifiLEDState (delay 100 ?x)) with (wifiLEDState x).
  rewrite (proj1 (wifiLED_loop_periodic e _ _)).
  rewrite (proj1 (wifiLED_loop_geo t _)).
  apply wifiLED_updateGPSData.
Qed.

Lemma gpsLED_on_gps_byte (e : Env) (m : MailEnv) (b : GpsByte) (s : Device) :
  gpsLEDState (on_gps_byte e m b s)
  = match b with
    | NoSentence => gpsLEDState s
    | Sentence (Some _) => LED_ON
    | Sentence None => LED_BLINK_SLOW
    end.
Proof.
  destruct b as [| [[lat lng] |]]; [reflexivity | | reflexivity].
  rewrite on_gps_byte_fix; cbv zeta.
  destruct (firstGPSLock s); [| reflexivity].
  match goal with |- context [sendLocationEmail e m ?x] =>
    destruct (sendLocationEmail_keeps e m x)
      as (_ & _ & _ & _ & _ & _ & Kg & _); rewrite Kg
  end.
  reflexivity.
Qed.

Lemma gpsLED_read_gps (e : Env) (m : MailEnv) (bytes : list GpsByte) :
  forall s,
    gpsLEDState (read_gps e m bytes s) = last_sentence_led bytes (gpsLEDState s).
Proof.
  induction bytes as [| b rest IH]; intros s; cbn [read_gps last_sentence_led];
    [reflexivity |].
  rewrite IH, gpsLED_on_gps_byte. now destruct b as [| [loc |]].
Qed.

Lemma last_sentence_led_in_use (bytes : list GpsByte) :
  forall acc, acc <> LED_BLINK_FAST ->
    last_sentence_led bytes acc <> LED_BLINK_FAST.
Proof.
  induction bytes as [| [| [loc |]] rest IH]; intros acc Hacc; simpl;
    [exact Hacc | now apply IH | |]; apply IH; discriminate.
Qed.

Lemma gpsLED_updateGPSData_in_use (e : Env) (bytes : list GpsByte) (m : MailEnv)
    (s : Device) :
  gpsLEDState s <> LED_BLINK_FAST ->
  gpsLEDState (updateGPSData e bytes m s) <> LED_BLINK_FAST.
Proof.
  intros H; unfold updateGPSData; cbv zeta.
  pose proof (gpsLED_read_gps e m bytes s) as Hr.
  destruct bytes.
  - destruct (sub32 (millis (read_gps e m [] s)) (lastGPSData (read_gps e m [] s))
              >? GPS_SILENCE); [discriminate | exact H].
  - change (gpsLEDState (set_lastGPSData ?v ?x)) with (gpsLEDState x).
    rewrite Hr. now apply last_sentence_led_in_use.
Qed.

Lemma led_states_in_use_loop (e : Env) (t : TickEnv) (s : Device) :
  led_states_in_use s -> led_states_in_use (loop e t s).
Proof.
  intros (Hw & Hg & Hs); unfold led_states_in_use.
  rewrite wifiLED_loop, loop_system.
  split; [| split; [| exact Hs]].
  - unfold loop_reconnect.
    destruct (negb (wifi_connected e (clock s))); [| exact Hw].
    rewrite (proj2 (connectToWiFi_outcome e s)).
    destruct (wifi_connected e _); [now left | now right].
  - assert (Hne : gpsLEDState (loop e t s) <> LED_BLINK_FAST).
    { rewrite loop_at_periodic_check. unfold at_periodic_check.
      change (gpsLEDState (delay 100 ?x)) with (gpsLEDState x).
      destruct (loop_periodic_keeps e (periodic_mail t)
                  (loop_geo t (updateGPSData e (gps_bytes t) (lock_mail t)
                                 (loop_reconnect e s))))
        as (_ & _ & _ & _ & _ & Kg & _).
      rewrite Kg.
      destruct (steady_reads _ _ (steady_loop_geo t
                  (updateGPSData e (gps_bytes t) (lock_mail t)
                     (loop_reconnect e s))))
        as (_ & _ & _ & _ & _ & _ & Kg1 & _).
      rewrite Kg1. apply gpsLED_updateGPSData_in_use.
      destruct (steady_reads _ _ (steady_loop_reconnect e s))
        as (_ & _ & _ & _ & _ & _ & Kg2 & _).
      rewrite Kg2. destruct Hg as [-> | [-> | ->]]; discriminate. }
    destruct (gpsLEDState (loop e t s)); auto. contradiction.
Qed.

Lemma led_states_in_use_setup (e : Env) (geo_wifi_ok : bool) (s : Device) :
  led_states_in_use (setup e geo_wifi_ok s).
Proof.
  unfold setup; cbv zeta.
  pose proof (wifiLED_syncTime e (setup_until_sync e s)) as Hw.
  pose proof (steady_syncTime e (setup_until_sync e s)) as Hst.
  destruct (syncTime e (setup_until_sync e s)) as [synced s1]; cbn [snd] in *.
  destruct (steady_reads _ _ Hst) as (_ & _ & _ & _ & _ & _ & Hg & _).
  assert (Hw1 : wifiLEDState s1 = LED_ON \/ wifiLEDState s1 = LED_BLINK_FAST).
  { rewrite Hw. unfold setup_until_sync; cbv zeta.
    match goal with |- context [connectToWiFi e ?x] =>
      rewrite (proj2 (connectToWiFi_outcome e x))
    end.
    destruct (wifi_connected e _); [now left | now right]. }
  assert (Hg1 : gpsLEDState s1 = LED_BLINK_SLOW).
  { rewrite Hg. unfold setup_until_sync; cbv zeta.
    match goal with |- context [connectToWiFi e ?x] =>
      destruct (steady_reads _ _ (steady_connectToWiFi e x))
        as (_ & _ & _ & _ & _ & _ & Hg' & _); rewrite Hg'
    end.
    reflexivity. }
  unfold led_states_in_use, initializeGeoLinker; cbv zeta.
  destruct synced; cbn [negb];
    (destruct (wifi_connected e _); [destruct geo_wifi_ok |]);
    cbn [wifiLEDState gpsLEDState systemLEDState setSystemLED
         set_systemLEDState set_geo];
    rewrite Hg1; repeat split; auto.
Qed.

(** X6. Between iterations the link indicator state is always On or
    BlinkFast, the GPS indicator state Off, On or BlinkSlow, and the system
    indicator state Off or BlinkSlow: the states the header documents as
    link Off (disconnected), system On (error) and the fast-blink error
    states of the GPS and system channels are never entered. *)
Theorem only_some_indicator_states_are_used :
  forall (e : Env) (geo_wifi_ok : bool) (ticks : list TickEnv),
    let s := boot e geo_wifi_ok ticks in
    (wifiLEDState s = LED_ON \/ wifiLEDState s = LED_BLINK_FAST)
    /\ (gpsLEDState s = LED_OFF \/ gpsLEDState s = LED_ON
        \/ gpsLEDState s = LED_BLINK_SLOW)
    /\ (systemLEDState s = LED_OFF \/ systemLEDState s = LED_BLINK_SLOW).
Proof.
  intros e geo_wifi_ok ticks s; subst s; unfold boot.
  generalize (led_states_in_use_setup e geo_wifi_ok power_on).
  generalize (setup e geo_wifi_ok power_on).
  induction ticks as [| t rest IH]; intros s Hs; cbn [run]; [exact Hs |].
  apply IH, led_states_in_use_loop, Hs.
Qed.

(** ** The system indicator is decided in setup *)

Lemma systemLED_setup (e : Env) (geo_wifi_ok : bool) (s : Device) :
  systemLEDState (setup e geo_wifi_ok s)
  = if fst (syncTime e (setup_until_sync e s))
       && (negb (wifi_connected e (clock (setup e geo_wifi_ok s))) || geo_wifi_ok)
    then LED_OFF else LED_BLINK_SLOW.
Proof.
  rewrite clock_setup. unfold setup; cbv zeta.
  destruct (syncTime e (setup_until_sync e s)) as [synced s1]; cbn [fst snd].
  unfold initializeGeoLinker; cbv zeta.
  destruct synced; cbn [negb andb];
    change (clock (set_geo ?g (setSystemLED ?st s1))) with (clock s1);
    destruct (wifi_connected e (clock s1)); destruct geo_wifi_ok; reflexivity.
Qed.

(** X7. The system indicator state is decided once, in setup: Off if the
    time synchronisation succeeded and GeoLinker connected (or the link was
    down when it was initialised), BlinkSlow otherwise.  No iteration of
    loop changes it, whatever status geo.loop() reports and whatever becomes
    of the link, the fix or the mail. *)
Theorem system_indicator_is_decided_in_setup :
  forall (e : Env) (geo_wifi_ok : bool) (ticks : list TickEnv),
    let s0 := setup e geo_wifi_ok power_on in
    systemLEDState (boot e geo_wifi_ok ticks) = systemLEDState s0
    /\ systemLEDState s0
       = (if fst (syncTime e (setup_until_sync e power_on))
             && (negb (wifi_connected e (clock s0)) || geo_wifi_ok)
          then LED_OFF else LED_BLINK_SLOW).
Proof.
  intros e geo_wifi_ok ticks s0. split.
  - unfold boot. apply run_system.
  - apply systemLED_setup.
Qed.

(** ** The link indicator follows reconnection attempts only *)

(** X8. An iteration of loop that starts with the link up leaves the link
    indicator state as it is, also when that is BlinkFast from an earlier
    failed attempt; an iteration that starts with the link down sets it to
    On or BlinkFast by the outcome of the connection attempt. *)
Theorem link_indicator_changes_only_on_reconnect :
  forall (e : Env) (t : TickEnv) (s : Device),
    wifiLEDState (loop e t s)
    = if wifi_connected e (clock s) then wifiLEDState s
      else if wifi_connected e (clock (connectToWiFi e s))
           then LED_ON else LED_BLINK_FAST.
Proof.
  intros e t s. rewrite wifiLED_loop. unfold loop_reconnect.
  destruct (wifi_connected e (clock s)); cbn [negb]; [reflexivity |].
  apply (proj2 (connectToWiFi_outcome e s)).
Qed.

(** ** How long an iteration takes *)

Lemma clock_loop_reconnect (e : Env) (s : Device) :
  clock s <= clock (loop_reconnect e s)
  /\ ((forall j, 0 <= j <= 40 -> wifi_connected e (clock s + 500 * j) = false) ->
      clock (loop_reconnect e s) = clock s + WIFI_TIMEOUT).
Proof.
  unfold loop_reconnect.
  destruct (connectToWiFi_outcome e s) as ((n & Hn & Hcn & Hdown & Hup) & _).
  destruct (wifi_connected e (clock s)) eqn:Hwifi; cbn [negb].
  - split; [apply Z.le_refl |]. intros Hnever.
    specialize (Hnever 0 ltac:(lia)). rewrite Z.mul_0_r, Z.add_0_r in Hnever.
    congruence.
  - rewrite Hcn. split; [lia |]. intros Hnever.
    destruct (Z.lt_ge_cases n 40) as [Hlt | Hge].
    + specialize (Hup Hlt). rewrite Hcn, (Hnever n) in Hup by lia. discriminate.
    + unfold WIFI_TIMEOUT. lia.
Qed.

Lemma clock_loop_after_reconnect (e : Env) (t : TickEnv) (s : Device) :
  clock (loop_reconnect e s) + 100 <= clock (loop e t s).
Proof.
  rewrite loop_at_periodic_check. unfold at_periodic_check.
  rewrite clock_delay. change (Z.max 0 100) with 100.
  pose proof (proj2 (wifiLED_loop_periodic e (periodic_mail t)
    (loop_geo t (updateGPSData e (gps_bytes t) (lock_mail t) (loop_reconnect e s))))).
  pose proof (proj2 (wifiLED_loop_geo t
    (updateGPSData e (gps_bytes t) (lock_mail t) (loop_reconnect e s)))).
  pose proof (proj2 (wifiLED_updateGPSData e (gps_bytes t) (lock_mail t)
    (loop_reconnect e s))).
  lia.
Qed.

(** X9. The clock never runs backwards and every iteration of loop takes at
    least 100 ms; an iteration during which the link stays down takes at
    least 20.1 s, because the connection attempt blocks for its full
    timeout before the GPS is read. *)
Theorem loop_iteration_takes_at_least_100ms :
  forall (e : Env) (t : TickEnv) (s : Device),
    clock s + 100 <= clock (loop e t s)
    /\ ((forall j, 0 <= j <= 40 -> wifi_connected e (clock s + 500 * j) = false) ->
        clock s + WIFI_TIMEOUT + 100 <= clock (loop e t s)
        /\ clock (at_periodic_check e t s) >= clock s + WIFI_TIMEOUT).
Proof.
  intros e t s.
  pose proof (clock_loop_after_reconnect e t s) as Hafter.
  destruct (clock_loop_reconnect e s) as [Hle Hdown].
  split; [lia |].
  intros Hnever. specialize (Hdown Hnever). split; [lia |].
  unfold at_periodic_check.
  pose proof (proj2 (wifiLED_loop_geo t
    (updateGPSData e (gps_bytes t) (lock_mail t) (loop_reconnect e s)))).
  pose proof (proj2 (wifiLED_updateGPSData e (gps_bytes t) (lock_mail t)
    (loop_reconnect e s))).
  lia.
Qed.

Lemma loop_iteration_takes_at_least_100ms_witness :
  (forall j, 0 <= j <= 40 ->
     wifi_connected never_online (clock power_on + 500 * j) = false)
  /\ clock power_on + WIFI_TIMEOUT + 100
     <= clock (loop never_online tick_silent power_on).
Proof.
  assert (H : forall j, 0 <= j <= 40 ->
                wifi_connected never_online (clock power_on + 500 * j) = false)
    by (intros j Hj; reflexivity).
  split; [exact H |].
  exact (proj1 (proj2 (loop_iteration_takes_at_least_100ms
                         never_online tick_silent power_on) H)).
Defined.

(** ** What a batch of GPS bytes does to the fix *)

Lemma last_fix_acc (bytes : list GpsByte) :
  forall acc,
    last_fix bytes acc
    = match last_fix bytes None with Some p => Some p | None => acc end.
Proof.
  induction bytes as [| [| [loc |]] rest IH]; intros acc; cbn [last_fix].
  - reflexivity.
  - apply IH.
  - rewrite (IH (Some loc)). now destruct (last_fix rest None).
  - apply IH.
Qed.

Lemma on_gps_byte_position (e : Env) (m : MailEnv) (b : GpsByte) (s : Device) :
  let s' := on_gps_byte e m b s in
  match b with
  | Sentence (Some (lat, lng)) =>
      gpsDataValid s' = true
      /\ currentLatitude s' = lat /\ currentLongitude s' = lng
  | _ =>
      gpsDataValid s' = gpsDataValid s
      /\ currentLatitude s' = currentLatitude s
      /\ currentLongitude s' = currentLongitude s
  end.
Proof.
  destruct b as [| [[lat lng] |]]; cbv zeta; [now repeat split | | now repeat split].
  rewrite on_gps_byte_fix; cbv zeta.
  destruct (firstGPSLock s); [| now repeat split].
  match goal with |- context [sendLocationEmail e m ?x] =>
    destruct (sendLocationEmail_keeps e m x) as (Kv & _ & Klat & Klng & _);
    rewrite Kv, Klat, Klng
  end.
  now repeat split.
Qed.

Lemma read_gps_position (e : Env) (m : MailEnv) (bytes : list GpsByte) :
  forall s,
    let s' := read_gps e m bytes s in
    gpsDataValid s'
    = (gpsDataValid s
       || match last_fix bytes None with Some _ => true | None => false end)
    /\ (currentLatitude s', currentLongitude s')
       = match last_fix bytes None with
         | Some p => p
         | None => (currentLatitude s, currentLongitude s)
         end.
Proof.
  induction bytes as [| b rest IH]; intros s; cbn [read_gps last_fix]; cbv zeta.
  - now rewrite orb_false_r.
  - destruct (IH (on_gps_byte e m b s)) as [Hv Hp]. cbv zeta in Hv, Hp.
    rewrite Hv, Hp.
    pose proof (on_gps_byte_position e m b s) as Hb. cbv zeta in Hb.
    destruct b as [| [[lat lng] |]].
    + destruct Hb as (-> & -> & ->). now split.
    + destruct Hb as (-> & -> & ->).
      rewrite (last_fix_acc rest (Some (lat, lng))).
      destruct (last_fix rest None); rewrite ?orb_true_r; now split.
    + destruct Hb as (-> & -> & ->). now split.
Qed.

(** X10. After updateGPSData the fix is valid exactly if it was valid before
    or one of the sentences just decoded carried a valid location, and the
    stored coordinates are those of the last such sentence (unchanged if
    there was none): sentences without a location and bytes that complete no
    sentence never touch the stored fix. *)
Theorem updateGPSData_keeps_the_last_valid_fix :
  forall (e : Env) (bytes : list GpsByte) (m : MailEnv) (s : Device),
    let s' := updateGPSData e bytes m s in
    gpsDataValid s'
    = (gpsDataValid s
       || match last_fix bytes None with Some _ => true | None => false end)
    /\ (currentLatitude s', currentLongitude s')
       = match last_fix bytes None with
         | Some p => p
         | None => (currentLatitude s, currentLongitude s)
         end.
Proof.
  intros e bytes m s s'; subst s'.
  pose proof (read_gps_position e m bytes s) as H. cbv zeta in H.
  unfold updateGPSData; cbv zeta.
  destruct bytes; [| exact H].
  destruct (sub32 (millis (read_gps e m [] s)) (lastGPSData (read_gps e m [] s))
            >? GPS_SILENCE); exact H.
Qed.

(** ** What a batch of GPS bytes does to the GPS indicator *)

Lemma lastGPSData_on_gps_byte (e : Env) (m : MailEnv) (b : GpsByte) (s : Device) :
  lastGPSData (on_gps_byte e m b s) = lastGPSData s.
Proof.
  destruct b as [| [[lat lng] |]]; [reflexivity | | reflexivity].
  rewrite on_gps_byte_fix; cbv zeta.
  destruct (firstGPSLock s); [| reflexivity].
  match goal with |- context [sendLocationEmail e m ?x] =>
    destruct (sendLocationEmail_keeps e m x) as (_ & _ & _ & _ & _ & Kd & _);
    rewrite Kd
  end.
  reflexivity.
Qed.

(** X11. When updateGPSData has read at least one byte, the GPS indicator
    state is the one the last completed sentence asks for (On with a valid
    location, BlinkSlow without, unchanged if no sentence completed),
    whatever gpsDataValid holds, and the silence timer restarts at the
    moment the function returns, after any first-lock e-mail it sent. *)
Theorem gps_indicator_follows_last_sentence :
  forall (e : Env) (bytes : list GpsByte) (m : MailEnv) (s : Device),
    bytes <> [] ->
    let s' := updateGPSData e bytes m s in
    gpsLEDState s' = last_sentence_led bytes (gpsLEDState s)
    /\ lastGPSData s' = millis s'.
Proof.
  intros e bytes m s Hbytes s'; subst s'.
  unfold updateGPSData; cbv zeta.
  destruct bytes as [| b rest]; [contradiction |].
  change (gpsLEDState (set_lastGPSData ?v ?x)) with (gpsLEDState x).
  split; [apply gpsLED_read_gps |].
  generalize (read_gps e m (b :: rest) s). reflexivity.
Qed.

(** A locked tracker that next hears a sentence without a location shows
    "searching" again. *)
Lemma gps_indicator_follows_last_sentence_witness :
  gps_bytes tick_searching <> []
  /\ gpsLEDState (updateGPSData always_online (gps_bytes tick_searching) mail_ok
                    locked_then_silent)
     = last_sentence_led (gps_bytes tick_searching)
         (gpsLEDState locked_then_silent).
Proof.
  assert (H : gps_bytes tick_searching <> []) by discriminate.
  split; [exact H |].
  exact (proj1 (gps_indicator_follows_last_sentence always_online
                  (gps_bytes tick_searching) mail_ok locked_then_silent H)).
Defined.

(** ** The silence timer in true time *)

(** X12. If the last byte was seen at the moment [s1] and nothing has
    touched the timer since, a byte-less updateGPSData switches the GPS
    indicator state to Off exactly when more than 5000 ms of true time have
    passed since then, and otherwise changes nothing; this holds across the
    wrap of millis(), for gaps of less than 2^32 ms. *)
Theorem gps_silence_is_measured_in_true_time :
  forall (e : Env) (m : MailEnv) (s1 s2 : Device),
    lastGPSData s1 = millis s1 ->
    lastGPSData s2 = lastGPSData s1 ->
    clock s1 <= clock s2 < clock s1 + two32 ->
    updateGPSData e [] m s2
    = if clock s2 - clock s1 >? GPS_SILENCE then setGPSLED LED_OFF s2 else s2.
Proof.
  intros e m s1 s2 Hjust Hsame Hclock.
  rewrite updateGPSData_silent, Hsame, Hjust. unfold millis.
  replace (clock s2) with (clock s1 + (clock s2 - clock s1)) at 1 by lia.
  rewrite sub32_elapsed by lia. reflexivity.
Qed.

Lemma gps_silence_is_measured_in_true_time_witness :
  let s1 := updateGPSData always_online (gps_bytes tick_fix) mail_ok power_on in
  let s2 := delay 5000 s1 in
  lastGPSData s1 = millis s1
  /\ updateGPSData always_online [] mail_ok s2
     = if clock s2 - clock s1 >? GPS_SILENCE then setGPSLED LED_OFF s2 else s2.
Proof.
  intros s1 s2.
  assert (H1 : lastGPSData s1 = millis s1) by (vm_compute; reflexivity).
  assert (H2 : lastGPSData s2 = lastGPSData s1) by (vm_compute; reflexivity).
  assert (H3 : clock s1 <= clock s2 < clock s1 + two32)
    by (split; vm_compute; (discriminate || reflexivity)).
  split; [exact H1 |].
  exact (gps_silence_is_measured_in_true_time always_online mail_ok s1 s2
           H1 H2 H3).
Defined.

(** ** A first lock while the link is down *)

Lemma loop_after_lock (e : Env) (t : TickEnv) (s : Device) :
  firstGPSLock s = false ->
  firstGPSLock (loop e t s) = false
  /\ first_lock_calls (trace (loop e t s)) = first_lock_calls (trace s).
Proof.
  intros Hlock. rewrite loop_at_periodic_check.
  change (firstGPSLock (delay 100 ?x)) with (firstGPSLock x).
  change (trace (delay 100 ?x)) with (trace x).
  destruct (loop_periodic_keeps e (periodic_mail t) (at_periodic_check e t s))
    as (_ & Kl & _).
  destruct (loop_periodic_counts e (periodic_mail t) (at_periodic_check e t s))
    as (_ & _ & Kf).
  rewrite Kl, Kf. unfold at_periodic_check.
  destruct (steady_reads _ _ (steady_loop_geo t
             (updateGPSData e (gps_bytes t) (lock_mail t) (loop_reconnect e s))))
    as (_ & Hl1 & _ & _ & _ & _ & _ & _ & _ & Hlog1).
  destruct (steady_reads _ _ (steady_loop_reconnect e s))
    as (_ & Hl2 & _ & _ & _ & _ & _ & _ & _ & Hlog2).
  destruct (updateGPSData_after_lock e (gps_bytes t) (lock_mail t)
              (loop_reconnect e s)) as [Hl3 Hlog3]; [congruence |].
  split; [congruence |].
  rewrite <- first_lock_calls_mail_log, Hlog1, Hlog3, Hlog2.
  apply first_lock_calls_mail_log.
Qed.

Lemma run_after_lock (e : Env) (ticks : list TickEnv) :
  forall s,
    firstGPSLock s = false ->
    firstGPSLock (run e ticks s) = false
    /\ first_lock_calls (trace (run e ticks s)) = first_lock_calls (trace s).
Proof.
  induction ticks as [| t rest IH]; intros s Hlock; cbn [run]; [now split |].
  destruct (loop_after_lock e t s Hlock) as [Hl Hc].
  destruct (IH _ Hl) as [Hl' Hc']. split; congruence.
Qed.

(** X13. If the link is down at the moment the first valid sentence is
    decoded, the first-lock e-mail is refused at the guard of
    sendLocationEmail: nothing is looked up or sent and no time passes, yet
    firstGPSLock is cleared, so the first-lock path is never taken again in
    any later iteration. *)
Theorem first_lock_alert_is_lost_when_offline :
  forall (e : Env) (m : MailEnv) (lat lng : double) (s : Device),
    firstGPSLock s = true ->
    wifi_connected e (clock s) = false ->
    let s1 := on_gps_byte e m (Sentence (Some (lat, lng))) s in
    trace s1 = trace s ++ [Called_sendLocationEmail FirstLockSite (clock s);
                           CannotSendEmail (clock s)]
    /\ clock s1 = clock s
    /\ currentLocationName s1 = currentLocationName s
    /\ firstGPSLock s1 = false
    /\ forall ticks : list TickEnv,
         firstGPSLock (run e ticks s1) = false
         /\ first_lock_calls (trace (run e ticks s1)) = first_lock_calls (trace s1).
Proof.
  intros e m lat lng s Hlock Hdown s1.
  assert (Hs1 : s1 = emit (CannotSendEmail (clock s))
                       (emit (Called_sendLocationEmail FirstLockSite (clock s))
                          (set_firstGPSLock false
                             (setGPSLED LED_ON
                                (set_gpsDataValid true (set_position lat lng s)))))).
  { unfold s1. rewrite on_gps_byte_fix; cbv zeta. rewrite Hlock.
    unfold sendLocationEmail.
    cbn [clock emit set_firstGPSLock setGPSLED set_gpsLEDState set_gpsDataValid
         set_position].
    now rewrite Hdown. }
  assert (Hl1 : firstGPSLock s1 = false) by (rewrite Hs1; reflexivity).
  split; [| split; [| split; [| split]]].
  - rewrite Hs1. cbn [trace emit set_firstGPSLock setGPSLED set_gpsLEDState
                       set_gpsDataValid set_position].
    now rewrite <- app_assoc.
  - rewrite Hs1. reflexivity.
  - rewrite Hs1. reflexivity.
  - exact Hl1.
  - intros ticks. now apply run_after_lock.
Qed.

Lemma first_lock_alert_is_lost_when_offline_witness :
  let s := boot never_online false [tick_searching] in
  firstGPSLock s = true
  /\ wifi_connected never_online (clock s) = false
  /\ firstGPSLock (on_gps_byte never_online mail_ok (Sentence (Some kolkata)) s)
     = false.
Proof.
  intros s.
  assert (H1 : firstGPSLock s = true) by (vm_compute; reflexivity).
  assert (H2 : wifi_connected never_online (clock s) = false) by reflexivity.
  split; [exact H1 |]. split; [exact H2 |].
  exact (proj1 (proj2 (proj2 (proj2
    (first_lock_alert_is_lost_when_offline never_online mail_ok
       kolkata_lat kolkata_lng s H1 H2))))).
Defined.

(** ** No e-mail before the first fix *)

Lemma read_gps_quiet (e : Env) (m : MailEnv) (bytes : list GpsByte) :
  forall s,
    gpsDataValid (read_gps e m bytes s) = false ->
    trace (read_gps e m bytes s) = trace s.
Proof.
  induction bytes as [| b rest IH]; intros s Hv; cbn [read_gps] in *;
    [reflexivity |].
  destruct b as [| [[lat lng] |]].
  - now apply IH.
  - pose proof (on_gps_byte_position e m (Sentence (Some (lat, lng))) s) as Hb.
    cbv zeta in Hb. destruct Hb as (Hvalid & _).
    rewrite (read_gps_valid e m rest _ Hvalid) in Hv. discriminate.
  - rewrite (IH _ Hv). reflexivity.
Qed.

Lemma loop_quiet (e : Env) (t : TickEnv) (s : Device) :
  gpsDataValid (loop e t s) = false ->
  mail_log (trace (loop e t s)) = mail_log (trace s).
Proof.
  rewrite loop_at_periodic_check.
  change (gpsDataValid (delay 100 ?x)) with (gpsDataValid x).
  change (trace (delay 100 ?x)) with (trace x).
  rewrite (proj1 (loop_periodic_keeps e _ _)).
  intros Hv.
  assert (Hnot : periodic_due (at_periodic_check e t s) = false)
    by (unfold periodic_due; rewrite Hv; apply andb_false_r).
  unfold loop_periodic; rewrite Hnot.
  unfold at_periodic_check in *.
  destruct (steady_reads _ _ (steady_loop_geo t
             (updateGPSData e (gps_bytes t) (lock_mail t) (loop_reconnect e s))))
    as (Hv1 & _ & _ & _ & _ & _ & _ & _ & _ & Hlog1).
  rewrite Hlog1. rewrite Hv1 in Hv.
  destruct (steady_reads _ _ (steady_loop_reconnect e s))
    as (_ & _ & _ & _ & _ & _ & _ & _ & _ & Hlog2).
  rewrite <- Hlog2. f_equal.
  unfold updateGPSData in *; cbv zeta in *.
  destruct (gps_bytes t) as [| b rest].
  - destruct (sub32 (millis (read_gps e (lock_mail t) [] (loop_reconnect e s)))
                (lastGPSData (read_gps e (lock_mail t) [] (loop_reconnect e s)))
              >? GPS_SILENCE); reflexivity.
  - change (trace (set_lastGPSData ?v ?x)) with (trace x).
    apply read_gps_quiet. exact Hv.
Qed.

Lemma run_quiet (e : Env) (ticks : list TickEnv) :
  forall s,
    gpsDataValid (run e ticks s) = false ->
    mail_log (trace (run e ticks s)) = mail_log (trace s).
Proof.
  induction ticks as [| t rest IH]; intros s Hv; cbn [run] in *; [reflexivity |].
  rewrite (IH _ Hv). apply loop_quiet.
  destruct (gpsDataValid (loop e t s)) eqn:Hl; [| reflexivity].
  rewrite (run_valid e rest _ Hl) in Hv. discriminate.
Qed.

(** X14. As long as no sentence with a valid location has been decoded
    since power-on, sendLocationEmail has never been called: neither the
    first-lock nor the periodic path has run, nothing was looked up and no
    SMTP connection was opened, however long the tracker has been up. *)
Theorem no_mail_before_the_first_fix :
  forall (e : Env) (geo_wifi_ok : bool) (ticks : list TickEnv),
    gpsDataValid (boot e geo_wifi_ok ticks) = false ->
    mail_log (trace (boot e geo_wifi_ok ticks)) = [].
Proof.
  intros e geo_wifi_ok ticks Hv. unfold boot in *.
  rewrite (run_quiet e ticks _ Hv).
  pose proof (alert_state_setup e geo_wifi_ok power_on) as H.
  unfold alert_state in H. injection H as _ _ _ Hlog. exact Hlog.
Qed.

(** Four hundred seconds of searching. *)
Lemma no_mail_before_the_first_fix_witness :
  gpsDataValid (boot always_online true (repeat tick_searching 4000)) = false
  /\ mail_log (trace (boot always_online true (repeat tick_searching 4000))) = [].
Proof.
  assert (H : gpsDataValid (boot always_online true (repeat tick_searching 4000))
              = false) by (vm_compute; reflexivity).
  split; [exact H |].
  exact (no_mail_before_the_first_fix always_online true
           (repeat tick_searching 4000) H).
Defined.

(** ** Periodic e-mails are more than five minutes apart *)

Lemma periodic_call_times_app (a b : list Event) :
  periodic_call_times (a ++ b) = periodic_call_times a ++ periodic_call_times b.
Proof.
  induction a as [| ev a IH]; cbn [app periodic_call_times]; [reflexivity |].
  destruct ev as [| | [|] | | | |]; cbn [app]; now rewrite IH.
Qed.

Lemma periodic_call_times_mail_log (tr : list Event) :
  periodic_call_times (mail_log tr) = periodic_call_times tr.
Proof.
  unfold mail_log.
  induction tr as [| ev tr IH]; cbn [filter periodic_call_times]; [reflexivity |].
  destruct ev as [| | [|] | | | |]; cbn [is_mail_event periodic_call_times];
    now rewrite ?IH.
Qed.

Lemma spaced_snoc (gap c : Z) (times : list Z) :
  spaced gap times ->
  (forall t, In t times -> t + gap < c) ->
  spaced gap (times ++ [c]).
Proof.
  induction times as [| t1 rest IH]; intros Hsp Hlt; cbn [app spaced];
    [exact I |].
  destruct rest as [| t2 rest'].
  - cbn [app]. split; [apply Hlt; now left | exact I].
  - cbn [spaced] in Hsp. destruct Hsp as [H12 Hrest].
    cbn [app]. split; [exact H12 |].
    apply IH; [exact Hrest |].
    intros t Ht. apply Hlt. now right.
Qed.

Lemma sendLocationEmail_periodic_times (e : Env) (m : MailEnv) (s : Device) :
  periodic_call_times (trace (sendLocationEmail e m s))
  = periodic_call_times (trace s).
Proof.
  unfold sendLocationEmail, getAddressFromCoordinates; cbv zeta.
  destruct s as [wl gl sl lu bs lat lng valid lock name sent seen g clk pins tr];
    cbn -[Z.max Z.add periodic_call_times].
  destruct (wifi_connected e clk), valid, (geocode_reply m), (smtp_connect_ok m);
    cbn -[Z.max Z.add periodic_call_times];
    rewrite ?periodic_call_times_app; cbn [periodic_call_times];
    now rewrite ?app_nil_r.
Qed.

Lemma on_gps_byte_throttle (e : Env) (m : MailEnv) (b : GpsByte) (s : Device) :
  periodic_call_times (trace (on_gps_byte e m b s)) = periodic_call_times (trace s).
Proof.
  destruct b as [| [[lat lng] |]]; [reflexivity | | reflexivity].
  rewrite on_gps_byte_fix; cbv zeta.
  destruct (firstGPSLock s); [| reflexivity].
  rewrite sendLocationEmail_periodic_times.
  cbn [trace emit set_firstGPSLock setGPSLED set_gpsLEDState set_gpsDataValid
       set_position].
  rewrite periodic_call_times_app. cbn [periodic_call_times].
  apply app_nil_r.
Qed.

Lemma read_gps_throttle (e : Env) (m : MailEnv) (bytes : list GpsByte) :
  forall s,
    periodic_call_times (trace (read_gps e m bytes s))
    = periodic_call_times (trace s)
    /\ lastLocationSend (read_gps e m bytes s) = lastLocationSend s.
Proof.
  induction bytes as [| b rest IH]; intros s; cbn [read_gps]; [now split |].
  destruct (IH (on_gps_byte e m b s)) as [Ht Hl].
  rewrite Ht, Hl, on_gps_byte_throttle, on_gps_byte_keeps_lastLocationSend.
  now split.
Qed.

Lemma updateGPSData_throttle (e : Env) (bytes : list GpsByte) (m : MailEnv)
    (s : Device) :
  periodic_call_times (trace (updateGPSData e bytes m s))
  = periodic_call_times (trace s)
  /\ lastLocationSend (updateGPSData e bytes m s) = lastLocationSend s.
Proof.
  unfold updateGPSData; cbv zeta.
  pose proof (read_gps_throttle e m bytes s) as H.
  destruct bytes; [| exact H].
  destruct (sub32 (millis (read_gps e m [] s)) (lastGPSData (read_gps e m [] s))
            >? GPS_SILENCE); exact H.
Qed.

(** A stage that keeps the timestamp and the periodic calls and does not
    turn the clock back keeps the invariant. *)
Lemma throttle_inv_frame (s s' : Device) :
  lastLocationSend s' = lastLocationSend s ->
  periodic_call_times (trace s') = periodic_call_times (trace s) ->
  clock s <= clock s' ->
  throttle_inv s -> throttle_inv s'.
Proof.
  intros Hl Ht Hc (sent_at & Hlast & Hpast & Hbefore & Hsp).
  exists sent_at. rewrite Hl, Ht.
  split; [exact Hlast |]. split; [lia |]. split; assumption.
Qed.

Lemma throttle_inv_steady (s s' : Device) :
  steady s' = steady s -> clock s <= clock s' ->
  throttle_inv s -> throttle_inv s'.
Proof.
  intros Hst Hc. 
  destruct (steady_reads _ _ Hst) as (_ & _ & _ & _ & Hl & _ & _ & _ & _ & Hlog).
  apply throttle_inv_frame; [exact Hl | | exact Hc].
  now rewrite <- periodic_call_times_mail_log, Hlog, periodic_call_times_mail_log.
Qed.

Lemma throttle_inv_loop_periodic (e : Env) (m : MailEnv) (s : Device) :
  throttle_inv s -> throttle_inv (loop_periodic e m s).
Proof.
  intros (sent_at & Hlast & Hpast & Hbefore & Hsp).
  unfold loop_periodic.
  destruct (periodic_due s) eqn:Hdue;
    [| exists sent_at; repeat split; assumption].
  cbv zeta.
  set (s1 := sendLocationEmail e m
               (emit (Called_sendLocationEmail PeriodicSite (clock s)) s)).
  assert (Hclock : clock s <= clock s1)
    by apply (proj2 (wifiLED_sendLocationEmail e m
                       (emit (Called_sendLocationEmail PeriodicSite (clock s)) s))).
  assert (Htimes : periodic_call_times (trace s1)
                   = periodic_call_times (trace s) ++ [clock s]).
  { unfold s1. rewrite sendLocationEmail_periodic_times.
    cbn [trace emit]. now rewrite periodic_call_times_app. }
  assert (Hgap : sent_at + LOCATION_SEND_INTERVAL < clock s).
  { unfold periodic_due in Hdue. apply andb_true_iff in Hdue as [Hdue _].
    apply Z.gtb_lt in Hdue. rewrite Hlast in Hdue.
    unfold sub32, millis in Hdue. rewrite <- Zminus_mod in Hdue.
    pose proof (Z.mod_le (clock s - sent_at) two32 ltac:(lia) ltac:(reflexivity)).
    lia. }
  clearbody s1.
  exists (clock s1).
  change (lastLocationSend (set_lastLocationSend (millis s1) s1)) with (millis s1).
  change (clock (set_lastLocationSend (millis s1) s1)) with (clock s1).
  change (trace (set_lastLocationSend (millis s1) s1)) with (trace s1).
  rewrite Htimes.
  split; [reflexivity |]. split; [apply Z.le_refl |]. split.
  - intros t Ht. apply in_app_or in Ht. destruct Ht as [Ht | [<- | []]].
    + specialize (Hbefore t Ht). lia.
    + exact Hclock.
  - apply spaced_snoc; [exact Hsp |].
    intros t Ht. specialize (Hbefore t Ht). lia.
Qed.

Lemma throttle_inv_loop (e : Env) (t : TickEnv) (s : Device) :
  throttle_inv s -> throttle_inv (loop e t s).
Proof.
  intros H. rewrite loop_at_periodic_check. unfold at_periodic_check.
  apply (throttle_inv_steady _ _ (steady_delay 100 _));
    [rewrite clock_delay; change (Z.max 0 100) with 100; lia |].
  apply throttle_inv_loop_periodic.
  apply (throttle_inv_steady _ _ (steady_loop_geo t _));
    [apply wifiLED_loop_geo |].
  destruct (updateGPSData_throttle e (gps_bytes t) (lock_mail t)
              (loop_reconnect e s)) as [Ht Hl].
  apply (throttle_inv_frame _ _ Hl Ht); [apply wifiLED_updateGPSData |].
  apply (throttle_inv_steady _ _ (steady_loop_reconnect e s));
    [apply clock_loop_reconnect | exact H].
Qed.

Lemma clock_setup_lower (e : Env) (geo_wifi_ok : bool) (s : Device) :
  clock s <= clock (setup e geo_wifi_ok s).
Proof.
  rewrite clock_setup.
  destruct (syncTime_outcome e (setup_until_sync e s))
    as ((n2 & Hn2 & Hc2 & _) & _).
  rewrite Hc2. unfold setup_until_sync; cbv zeta.
  match goal with |- context [connectToWiFi e ?x] =>
    destruct (connectToWiFi_outcome e x) as ((n1 & Hn1 & Hc1 & _) & _)
  end.
  rewrite Hc1, clock_before_connect. lia.
Qed.

Lemma throttle_inv_setup (e : Env) (geo_wifi_ok : bool) :
  throttle_inv (setup e geo_wifi_ok power_on).
Proof.
  pose proof (alert_state_setup e geo_wifi_ok power_on) as H.
  unfold alert_state in H. injection H as _ _ Hl Hlog.
  exists 0. rewrite Hl, <- periodic_call_times_mail_log, Hlog.
  split; [reflexivity |]. split; [apply (clock_setup_lower e geo_wifi_ok power_on) |].
  split; [intros t [] | exact I].
Qed.

(** X15. In every run, each call of sendLocationEmail on the periodic path
    comes more than 300000 ms of true time after the one before it; this
    also holds across the wrap of millis() after 49.7 days. *)
Theorem periodic_calls_are_more_than_5_minutes_apart :
  forall (e : Env) (geo_wifi_ok : bool) (ticks : list TickEnv),
    spaced LOCATION_SEND_INTERVAL
      (periodic_call_times (trace (boot e geo_wifi_ok ticks))).
Proof.
  intros e geo_wifi_ok ticks.
  assert (H : throttle_inv (boot e geo_wifi_ok ticks)).
  { unfold boot. generalize (throttle_inv_setup e geo_wifi_ok).
    generalize (setup e geo_wifi_ok power_on).
    induction ticks as [| t rest IH]; intros s Hs; cbn [run]; [exact Hs |].
    apply IH, throttle_inv_loop, Hs. }
  destruct H as (sent_at & _ & _ & _ & Hsp). exact Hsp.
Qed.

(** ** Reverse geocoding: what the parser returns *)

Lemma string_app_assoc (a b c : string) :
  ((a ++ b) ++ c = a ++ (b ++ c))%string.
Proof. induction a as [| x a IH]; simpl; [reflexivity | now rewrite IH]. Qed.

Lemma string_app_nil_r (a : string) : (a ++ "")%string = a.
Proof. induction a as [| x a IH]; simpl; [reflexivity | now rewrite IH]. Qed.

Lemma string_length_app (a b : string) :
  String.length (a ++ b) = (String.length a + String.length b)%nat.
Proof. induction a as [| x a IH]; simpl; [reflexivity | now rewrite IH]. Qed.

Lemma prefix_split (p : string) :
  forall s, prefix p s = true -> exists post, s = (p ++ post)%string.
Proof.
  induction p as [| a p IH]; intros s H.
  - now exists s.
  - destruct s as [| b s]; simpl in H; [discriminate |].
    destruct (ascii_dec a b) as [-> | Hne]; [| discriminate].
    destruct (IH s H) as [post ->]. now exists post.
Qed.

Lemma prefix_empty (s : string) : prefix "" s = true.
Proof. now destruct s. Qed.

Lemma prefix_app (p post : string) : prefix p (p ++ post) = true.
Proof.
  induction p as [| a p IH]; simpl; [now destruct post |].
  destruct (ascii_dec a a) as [_ | Hne]; [exact IH | now elim Hne].
Qed.

Lemma index_split (pat : string) :
  forall (s : string) (n m : nat),
    index n pat s = Some m ->
    (n <= m)%nat
    /\ exists pre post,
         s = (pre ++ pat ++ post)%string /\ String.length pre = m.
Proof.
  induction s as [| b s IH]; intros n m H.
  - destruct n; simpl in H; [| discriminate].
    destruct pat; [| discriminate].
    injection H as <-. split; [lia |]. now exists ""%string, ""%string.
  - destruct n as [| n]; cbn [index] in H.
    + destruct (prefix pat (String b s)) eqn:Hp.
      * injection H as <-. split; [lia |].
        destruct (prefix_split _ _ Hp) as [post Hs].
        now exists ""%string, post.
      * destruct (index 0 pat s) as [k |] eqn:Hk; [| discriminate].
        injection H as <-. split; [lia |].
        destruct (IH 0%nat k Hk) as (_ & pre & post & -> & Hlen).
        exists (String b pre), post. simpl. now rewrite Hlen.
    + destruct (index n pat s) as [k |] eqn:Hk; [| discriminate].
      injection H as <-.
      destruct (IH n k Hk) as (Hle & pre & post & -> & Hlen).
      split; [lia |].
      exists (String b pre), post. simpl. now rewrite Hlen.
Qed.

Lemma index_after_prefix (pat p r : string) (n : nat) :
  index (String.length p + n) pat (p ++ r)
  = option_map (fun k => (String.length p + k)%nat) (index n pat r).
Proof.
  induction p as [| a p IH]; simpl.
  - now destruct (index n pat r).
  - rewrite IH. now destruct (index n pat r).
Qed.

Lemma index_char_split (c : Ascii.ascii) :
  forall (r : string) (k : nat),
    index 0 (String c "") r = Some k ->
    exists name post,
      r = (name ++ String c post)%string
      /\ String.length name = k
      /\ char_free c name = true.
Proof.
  induction r as [| b r IH]; intros k H; simpl in H; [discriminate |].
  destruct (ascii_dec c b) as [<- | Hne].
  - rewrite prefix_empty in H. injection H as <-. now exists ""%string, r.
  - destruct (index 0 (String c "") r) as [k' |] eqn:Hk; [| discriminate].
    injection H as <-.
    destruct (IH k' eq_refl) as (name & post & -> & Hlen & Hfree).
    exists (String b name), post. simpl. rewrite Hlen, Hfree.
    repeat split.
    destruct (Ascii.eqb_spec b c) as [-> | _]; [now elim Hne | reflexivity].
Qed.

Lemma index_char_found (c : Ascii.ascii) (name post : string) :
  char_free c name = true ->
  index 0 (String c "") (name ++ String c post) = Some (String.length name).
Proof.
  induction name as [| b name IH]; intros Hfree; simpl in *.
  - destruct (ascii_dec c c) as [_ | Hne]; [| now elim Hne].
    now rewrite prefix_empty.
  - apply andb_true_iff in Hfree as [Hb Hfree].
    destruct (ascii_dec c b) as [<- | Hne].
    + rewrite Ascii.eqb_refl in Hb. discriminate.
    + now rewrite (IH Hfree).
Qed.

Lemma substring_prefix (mid post : string) :
  substring 0 (String.length mid) (mid ++ post) = mid.
Proof.
  induction mid as [| a mid IH]; simpl.
  - now destruct post.
  - now rewrite IH.
Qed.

Lemma substring_middle (p mid post : string) :
  substring (String.length p) (String.length mid) (p ++ mid ++ post) = mid.
Proof.
  induction p as [| a p IH]; simpl; [apply substring_prefix | exact IH].
Qed.

Lemma indexOf_found (pat : string) (from : Z) (s : string) :
  indexOf pat from s <> -1 ->
  exists i : nat,
    index (Z.to_nat from) pat s = Some i
    /\ indexOf pat from s = Z.of_nat i
    /\ from < Z.of_nat (String.length s).
Proof.
  unfold indexOf.
  destruct (Z.leb_spec (Z.of_nat (String.length s)) from) as [Hle | Hlt];
    [congruence |].
  destruct (index (Z.to_nat from) pat s) as [i |]; [| congruence].
  intros _. now exists i.
Qed.

Lemma DISPLAY_NAME_KEY_length : String.length DISPLAY_NAME_KEY = 16%nat.
Proof. reflexivity. Qed.

(** The two searches of the parser, on a response cut at the key. *)
Lemma parse_at_key (pre name post : string) :
  index 0 DISPLAY_NAME_KEY (pre ++ DISPLAY_NAME_KEY ++ name ++ String dquote post)
    = Some (String.length pre) ->
  char_free dquote name = true ->
  parse_display_name (pre ++ DISPLAY_NAME_KEY ++ name ++ String dquote post)
  = Some name.
Proof.
  intros Hkey Hfree.
  set (response := (pre ++ DISPLAY_NAME_KEY ++ name ++ String dquote post)%string).
  assert (Hlen : String.length response
                 = (String.length pre + 16 + String.length name
                    + S (String.length post))%nat).
  { unfold response.
    rewrite !string_length_app, DISPLAY_NAME_KEY_length. simpl. lia. }
  assert (Hstart : indexOf DISPLAY_NAME_KEY 0 response
                   = Z.of_nat (String.length pre)).
  { unfold indexOf. destruct (Z.leb_spec (Z.of_nat (String.length response)) 0);
      [lia |].
    change (Z.to_nat 0) with 0%nat. fold response in Hkey. now rewrite Hkey. }
  assert (Hend : indexOf (String dquote "")
                   (Z.of_nat (String.length pre) + 16) response
                 = Z.of_nat (String.length pre + 16 + String.length name)).
  { unfold indexOf.
    destruct (Z.leb_spec (Z.of_nat (String.length response))
                (Z.of_nat (String.length pre) + 16)); [lia |].
    replace (Z.to_nat (Z.of_nat (String.length pre) + 16))
      with (String.length (pre ++ DISPLAY_NAME_KEY) + 0)%nat
      by (rewrite string_length_app, DISPLAY_NAME_KEY_length; lia).
    unfold response. rewrite <- string_app_assoc, index_after_prefix.
    rewrite (index_char_found dquote name post Hfree). simpl.
    rewrite string_length_app, DISPLAY_NAME_KEY_length. reflexivity. }
  unfold parse_display_name; cbv zeta.
  rewrite Hstart.
  destruct (Z.eqb_spec (Z.of_nat (String.length pre)) (-1)) as [Hneg | _];
    [lia |].
  cbn [negb]. rewrite Hend.
  destruct (Z.eqb_spec (Z.of_nat (String.length pre + 16 + String.length name))
              (-1)) as [Hneg | _]; [lia |].
  cbn [negb]. f_equal.
  unfold substring_between; cbv zeta.
  destruct (Z.ltb_spec (Z.of_nat (String.length pre + 16 + String.length name))
              (Z.of_nat (String.length pre) + 16)); [lia |].
  destruct (Z.leb_spec (Z.of_nat (String.length response))
              (Z.of_nat (String.length pre) + 16)); [lia |].
  destruct (Z.ltb_spec (Z.of_nat (String.length response))
              (Z.of_nat (String.length pre + 16 + String.length name))); [lia |].
  replace (Z.to_nat (Z.of_nat (String.length pre) + 16))
    with (String.length (pre ++ DISPLAY_NAME_KEY))
    by (rewrite string_length_app, DISPLAY_NAME_KEY_length; lia).
  replace (Z.to_nat (Z.of_nat (String.length pre + 16 + String.length name)
                     - (Z.of_nat (String.length pre) + 16)))
    with (String.length name) by lia.
  unfold response. rewrite <- string_app_assoc.
  apply substring_middle.
Qed.

Lemma parse_display_name_cut (response name : string) :
  parse_display_name response = Some name ->
  char_free dquote name = true
  /\ exists pre post : string,
       response = (pre ++ DISPLAY_NAME_KEY ++ name ++ String dquote post)%string
       /\ index 0 DISPLAY_NAME_KEY response = Some (String.length pre).
Proof.
  intros H.
  unfold parse_display_name in H; cbv zeta in H.
  destruct (Z.eqb_spec (indexOf DISPLAY_NAME_KEY 0 response) (-1)) as [| Hs];
    [discriminate |].
  cbn [negb] in H.
  destruct (indexOf_found _ _ _ Hs) as (a & Ha & Hia & _).
  change (Z.to_nat 0) with 0%nat in Ha. rewrite Hia in H.
  destruct (Z.eqb_spec (indexOf (String dquote "") (Z.of_nat a + 16) response) (-1))
    as [| He]; [discriminate |].
  cbn [negb] in H. injection H as H.
  destruct (indexOf_found _ _ _ He) as (b & Hb & Hib & Hlt).
  destruct (index_split _ _ _ _ Ha) as (_ & pre & rest & Hresp & Hpre).
  subst a.
  replace (Z.to_nat (Z.of_nat (String.length pre) + 16))
    with (String.length (pre ++ DISPLAY_NAME_KEY) + 0)%nat in Hb
    by (rewrite string_length_app, DISPLAY_NAME_KEY_length; lia).
  rewrite Hresp, <- string_app_assoc, index_after_prefix in Hb.
  destruct (index 0 (String dquote "") rest) as [k |] eqn:Hk; [| discriminate].
  cbn [option_map] in Hb. injection Hb as Hb.
  destruct (index_char_split dquote rest k Hk) as (nm & post & -> & Hlen & Hfree).
  assert (Hparse : parse_display_name response = Some nm).
  { rewrite Hresp. apply parse_at_key; [| exact Hfree]. now rewrite <- Hresp. }
  assert (name = nm).
  { unfold parse_display_name in Hparse; cbv zeta in Hparse.
    destruct (Z.eqb_spec (indexOf DISPLAY_NAME_KEY 0 response) (-1));
      [contradiction |].
    cbn [negb] in Hparse. rewrite Hia in Hparse.
    destruct (Z.eqb_spec (indexOf (String dquote "")
                            (Z.of_nat (String.length pre) + 16) response) (-1));
      [contradiction |].
    cbn [negb] in Hparse. injection Hparse as Hparse. congruence. }
  subst nm. split; [exact Hfree |].
  exists pre, post. split; [exact Hresp | exact Ha].
Qed.

(** X16. Whatever the parser returns is the text that stands between the
    first occurrence of the key and the next double quote in the response,
    and it contains no double quote itself (so a display name with an
    escaped quote in it is cut at the backslash); the response is at least
    17 characters longer than the name. *)
Theorem parse_display_name_sound :
  forall (response name : string),
    parse_display_name response = Some name ->
    char_free dquote name = true
    /\ (exists pre post : string,
          response = (pre ++ DISPLAY_NAME_KEY ++ name ++ String dquote post)%string
          /\ index 0 DISPLAY_NAME_KEY response = Some (String.length pre))
    /\ (String.length name + 17 <= String.length response)%nat.
Proof.
  intros response name H.
  destruct (parse_display_name_cut response name H)
    as (Hfree & pre & post & Hresp & Hfirst).
  split; [exact Hfree |]. split; [now exists pre, post |].
  rewrite Hresp, !string_length_app, DISPLAY_NAME_KEY_length. simpl. lia.
Qed.

Lemma parse_display_name_sound_witness :
  let body := ("{" ++ DISPLAY_NAME_KEY ++ "Salt Lake, Kolkata"
                ++ String dquote ",lat:22.5}")%string in
  parse_display_name body = Some "Salt Lake, Kolkata"
  /\ char_free dquote "Salt Lake, Kolkata" = true.
Proof.
  intros body.
  assert (H : parse_display_name body = Some "Salt Lake, Kolkata")
    by (vm_compute; reflexivity).
  split; [exact H |].
  exact (proj1 (parse_display_name_sound body "Salt Lake, Kolkata" H)).
Defined.

(** X17. Round trip. If the key first occurs right after [pre] and is
    followed by a name without double quotes and a closing double quote, the
    parser returns exactly that name, whatever comes before and after. *)
Theorem parse_display_name_round_trip :
  forall (pre name post : string),
    let response :=
      (pre ++ DISPLAY_NAME_KEY ++ name ++ String dquote post)%string in
    index 0 DISPLAY_NAME_KEY response = Some (String.length pre) ->
    char_free dquote name = true ->
    parse_display_name response = Some name.
Proof.
  intros pre name post response Hkey Hfree. now apply parse_at_key.
Qed.

Lemma parse_display_name_round_trip_witness :
  let pre := ("{" ++ String dquote ("place_id" ++ String dquote ":1,"))%string in
  let response :=
    (pre ++ DISPLAY_NAME_KEY ++ "Salt Lake, Kolkata"
       ++ String dquote ",lat:22.5}")%string in
  index 0 DISPLAY_NAME_KEY response = Some (String.length pre)
  /\ parse_display_name response = Some "Salt Lake, Kolkata".
Proof.
  intros pre response.
  assert (H1 : index 0 DISPLAY_NAME_KEY response = Some (String.length pre))
    by (vm_compute; reflexivity).
  assert (H2 : char_free dquote "Salt Lake, Kolkata" = true)
    by (vm_compute; reflexivity).
  split; [exact H1 |].
  exact (parse_display_name_round_trip pre "Salt Lake, Kolkata" ",lat:22.5}"
           H1 H2).
Defined.

(** ** Reverse geocoding: headers and failures *)

Lemma http_body_after_headers (lines : list string) :
  forall response,
    http_body true response lines = (response ++ joined lines)%string.
Proof.
  induction lines as [| line rest IH]; intros response; cbn [http_body joined negb].
  - now rewrite string_app_nil_r.
  - rewrite IH. apply string_app_assoc.
Qed.

Lemma http_body_in_headers (headers : list string) :
  Forall (fun h => h <> CR_LINE) headers ->
  forall rest,
    http_body false "" (headers ++ rest) = http_body false "" rest.
Proof.
  induction 1 as [| h headers Hh _ IH]; intros rest; [reflexivity |].
  cbn [app http_body negb].
  destruct (String.eqb_spec h CR_LINE) as [-> | _]; [now elim Hh | apply IH].
Qed.

(** X18. The read loop drops every line up to and including the first lone
    CR and joins the lines after it without separators; a reply in which no
    lone CR line ever arrives leaves the response empty, and the lookup
    fails. *)
Theorem http_body_drops_the_headers :
  forall (headers body : list string),
    Forall (fun h => h <> CR_LINE) headers ->
    http_body false "" (headers ++ CR_LINE :: body) = joined body
    /\ http_body false "" headers = ""%string
    /\ http_reply true headers = None.
Proof.
  intros headers body Hh.
  assert (Hnone : http_body false "" headers = ""%string).
  { rewrite <- (app_nil_r headers). now rewrite (http_body_in_headers headers Hh). }
  split; [| split; [exact Hnone |]].
  - rewrite (http_body_in_headers headers Hh).
    cbn [http_body negb]. rewrite String.eqb_refl.
    apply http_body_after_headers.
  - unfold http_reply. now rewrite Hnone.
Qed.

Lemma http_body_drops_the_headers_witness :
  let headers := [("HTTP/1.1 200 OK" ++ CR_LINE)%string;
                  ("Content-Type: application/json" ++ CR_LINE)%string] in
  Forall (fun h => h <> CR_LINE) headers
  /\ http_reply true headers = None.
Proof.
  intros headers.
  assert (H : Forall (fun h => h <> CR_LINE) headers)
    by (repeat constructor; discriminate).
  split; [exact H |].
  exact (proj2 (proj2 (http_body_drops_the_headers headers [] H))).
Defined.

(** X19. What getAddressFromCoordinates returns when the reply it is given
    is the outcome of the HTTP exchange: with the link down, the fixed text
    "Network unavailable", at once; otherwise, after the exchange, either
    the name the parser found or the fixed text "Address lookup failed",
    the latter in particular when the connection to the server failed.  In
    no case does the returned text contain a double quote. *)
Theorem getAddressFromCoordinates_returns_name_or_sentinel :
  forall (e : Env) (connect_ok : bool) (lines : list string)
         (lookup_ms : Z) (smtp_ok : bool) (smtp_ms : Z) (send_ok : bool)
         (send_ms : Z) (lat lng : double) (s : Device),
    let m := mkMailEnv (http_reply connect_ok lines) lookup_ms smtp_ok smtp_ms
                       send_ok send_ms in
    let r := getAddressFromCoordinates e m lat lng s in
    (wifi_connected e (clock s) = false -> r = ("Network unavailable", s))
    /\ (wifi_connected e (clock s) = true ->
        snd r = delay lookup_ms s
        /\ (fst r = "Address lookup failed"
            \/ http_reply connect_ok lines = Some (fst r))
        /\ (connect_ok = false -> fst r = "Address lookup failed"))
    /\ char_free dquote (fst r) = true.
Proof.
  intros e connect_ok lines lookup_ms smtp_ok smtp_ms send_ok send_ms lat lng s
         m r.
  subst r m. unfold getAddressFromCoordinates. cbn [geocode_reply geocode_ms].
  destruct (wifi_connected e (clock s)); cbn [negb].
  - split; [discriminate |]. split.
    + intros _.
      destruct (http_reply connect_ok lines) as [name |] eqn:Hreply; cbn [fst snd].
      * split; [reflexivity |]. split; [now right |].
        intros ->. discriminate.
      * split; [reflexivity |]. split; [now left | reflexivity].
    + destruct (http_reply connect_ok lines) as [name |] eqn:Hreply; cbn [fst];
        [| reflexivity].
      unfold http_reply in Hreply.
      destruct connect_ok; [| discriminate].
      apply (parse_display_name_cut _ _ Hreply).
  - split; [reflexivity |]. split; [discriminate | reflexivity].
Qed.

Lemma getAddressFromCoordinates_returns_name_or_sentinel_witness :
  wifi_connected never_online (clock power_on) = false
  /\ getAddressFromCoordinates never_online
       (mkMailEnv (http_reply true []) 800 true 1500 true 2500)
       kolkata_lat kolkata_lng power_on
     = ("Network unavailable", power_on).
Proof.
  assert (H : wifi_connected never_online (clock power_on) = false)
    by reflexivity.
  split; [exact H |].
  exact (proj1 (getAddressFromCoordinates_returns_name_or_sentinel never_online
                  true [] 800 true 1500 true 2500 kolkata_lat kolkata_lng
                  power_on) H).
Defined.

(** ** What a location e-mail contains *)

(** X20. When sendLocationEmail passes its guard (link up, fix valid), it
    first stores the looked-up place name, or "Address lookup failed" when
    the lookup gave none, then opens the SMTP session; only if that succeeds
    is a mail handed to sendMail, carrying the stored coordinates, that
    place name and the timestamp taken right after the lookup.  If the SMTP
    connection fails nothing is sent, but the stored place name has already
    been replaced. *)
Theorem sendLocationEmail_mail_contents :
  forall (e : Env) (m : MailEnv) (s : Device),
    wifi_connected e (clock s) = true ->
    gpsDataValid s = true ->
    let s' := sendLocationEmail e m s in
    let place := match geocode_reply m with
                 | Some display_name => display_name
                 | None => "Address lookup failed"
                 end in
    let looked_up_at := clock s + Z.max 0 (geocode_ms m) in
    let stamp := if wall_clock e looked_up_at <? TIME_SANE
                 then "Time not synchronized"
                 else strftime_IST e (wall_clock e looked_up_at) in
    currentLocationName s' = place
    /\ trace s'
       = trace s
         ++ SmtpConnect looked_up_at (smtp_connect_ok m)
            :: (if smtp_connect_ok m
                then [SendMail (looked_up_at + Z.max 0 (smtp_connect_ms m))
                               (currentLatitude s) (currentLongitude s)
                               place stamp (sendMail_ok m)]
                else [])
    /\ clock s'
       = looked_up_at + Z.max 0 (smtp_connect_ms m)
         + (if smtp_connect_ok m then Z.max 0 (sendMail_ms m) else 0).
Proof.
  intros e m s Hwifi Hvalid.
  unfold sendLocationEmail, getAddressFromCoordinates, getCurrentTimestamp,
    TIME_NOT_SYNCHRONIZED; cbv zeta.
  destruct s as [wl gl sl lu bs lat lng valid lock name sent seen g clk pins tr].
  cbn -[Z.max Z.add Z.ltb] in *. rewrite Hwifi, Hvalid.
  destruct (geocode_reply m), (smtp_connect_ok m);
    cbn -[Z.max Z.add Z.ltb]; rewrite <- ?app_assoc;
    repeat split; try reflexivity; lia.
Qed.

Lemma sendLocationEmail_mail_contents_witness :
  wifi_connected always_online (clock locked_then_silent) = true
  /\ gpsDataValid locked_then_silent = true
  /\ currentLocationName (sendLocationEmail always_online mail_ok locked_then_silent)
     = "Salt Lake, Kolkata".
Proof.
  assert (H1 : wifi_connected always_online (clock locked_then_silent) = true)
    by reflexivity.
  assert (H2 : gpsDataValid locked_then_silent = true)
    by (vm_compute; reflexivity).
  split; [exact H1 |]. split; [exact H2 |].
  exact (proj1 (sendLocationEmail_mail_contents always_online mail_ok
                  locked_then_silent H1 H2)).
Defined.
